(** * kuato: the file-based session search, embedded and verified

    A shallow embedding of [file-based/search.ts] (scoring, filtering,
    discovery, ordering and truncation of session records) and of the limit
    computation of the HTTP route in [postgres/api.ts].

    Conventions of the embedding.
    - A JavaScript string is the sequence of its UTF-16 code units.  The
      embedding covers strings whose code units lie below 256 (the Latin-1
      range), one [ascii] per code unit; [toLowerCase], [includes], [split]
      and [endsWith] are written out for that range.
    - A JavaScript number that the code only ever uses as an integer (scores,
      limits, day counts, epoch milliseconds) is a [Z].  [NaN], as produced
      by [parseInt], is falsy wherever the search options are read, so an
      option holding it is modelled as an absent option.  What [parseInt]
      returns is a [JsNumber]: the double nearest to the digits.
    - A [Date] is its time value, the milliseconds since the epoch, or the
      invalid date.  The modification time of a file, the clock and the
      timestamps of a parsed session are valid dates and are held as their
      time values; the bounds of the date window are held as [JsDate].
    - The file system, the clock and the session parser ([shared/parser.ts])
      are the environment of a search: an [Env] record gives the outcome of
      each call. *)

From Stdlib Require Import ZArith List Bool String Ascii Lia.
From Stdlib Require Import Sorted Permutation.
Import ListNotations.

Local Open Scope string_scope.
Local Open Scope Z_scope.

(** ** JavaScript strings over the Latin-1 range *)

Module JsString.

(** Code-unit view of one character. *)
Definition codeUnit (c : ascii) : N := N_of_ascii c.

(** [String.prototype.toLowerCase] on one Latin-1 code unit: the letters
    A..Z and the accented capitals U+00C0..U+00DE (the multiplication sign
    U+00D7 apart) move up by 32; every other code unit is unchanged. *)
Definition lowerCodeUnit (c : ascii) : ascii :=
  let n := codeUnit c in
  if (((65 <=? n) && (n <=? 90))
      || ((192 <=? n) && (n <=? 222) && negb (n =? 215)))%N
  then ascii_of_N (n + 32)
  else c.

Fixpoint toLowerCase (s : string) : string :=
  match s with
  | EmptyString => EmptyString
  | String c s' => String (lowerCodeUnit c) (toLowerCase s')
  end.

(** [t] is an initial segment of [s]. *)
Fixpoint startsWith (s t : string) {struct t} : bool :=
  match t, s with
  | EmptyString, _ => true
  | String _ _, EmptyString => false
  | String b t', String a s' => Ascii.eqb a b && startsWith s' t'
  end.

(** [String.prototype.includes]: [t] occurs in [s] at some position. *)
Fixpoint includes (s t : string) : bool :=
  match s with
  | EmptyString => startsWith s t
  | String _ s' => startsWith s t || includes s' t
  end.

(** [String.prototype.endsWith]. *)
Fixpoint endsWith (s t : string) : bool :=
  match s with
  | EmptyString => String.eqb s t
  | String _ s' => String.eqb s t || endsWith s' t
  end.

(** The class [\s] of a regular expression, below 256: TAB, LF, VT, FF, CR,
    SPACE and NO-BREAK SPACE. *)
Definition isWhitespace (c : ascii) : bool :=
  let n := codeUnit c in
  (((9 <=? n) && (n <=? 13)) || (n =? 32) || (n =? 160))%N.

(** Truthiness of a string: every string but the empty one. *)
Definition truthy (s : string) : bool :=
  match s with
  | EmptyString => false
  | String _ _ => true
  end.

(** [s.split(/\s+/)]: the pieces of [s] between its maximal runs of
    whitespace.  [piece] is the piece being read and [inRun] tells that the
    previous code unit was whitespace.  A run at either end leaves an empty
    piece there, and the empty string splits into one empty piece. *)
Fixpoint splitFrom (piece : string) (inRun : bool) (s : string) : list string :=
  match s with
  | EmptyString => [piece]
  | String c s' =>
      if isWhitespace c
      then if inRun
           then splitFrom EmptyString true s'
           else piece :: splitFrom EmptyString true s'
      else splitFrom (piece ++ String c EmptyString) false s'
  end.

Definition splitWhitespace (s : string) : list string :=
  splitFrom EmptyString false s.

(** [query.toLowerCase().split(/\s+/).filter(Boolean)] *)
Definition queryTermsOf (query : string) : list string :=
  filter truthy (splitWhitespace (toLowerCase query)).

End JsString.

Import JsString.

(** ** Session records *)

(** Modelled from the spec: the [ParsedSession] type of [shared/types.ts],
    which is not among the sources.  The fields are those of the spec's
    SessionRecord; [search.ts] reads [userMessages], [toolsUsed],
    [filesFromToolCalls] and [endedAt] and copies the rest. *)
Record ParsedSession := {
  id : string;
  startedAt : Z;
  endedAt : Z;
  gitBranch : option string;
  cwd : option string;
  version : option string;
  messageCount : Z;
  inputTokens : Z;
  outputTokens : Z;
  cacheCreationTokens : Z;
  cacheReadTokens : Z;
  toolsUsed : list string;
  filesFromToolCalls : list string;
  userMessages : list string;
  modelsUsed : list string;
  summary : option string;
  category : option string
}.

(** [{ ...session, relevance, transcriptPath: filePath }] *)
Record SearchResult := {
  session : ParsedSession;
  relevance : Z;
  transcriptPath : string
}.

(** A [Date]: a time value, or the invalid date, whose time value is [NaN]. *)
Inductive JsDate :=
| InvalidDate
| DateAt (t : Z).

(** The largest time value of a date, 100,000,000 days from the epoch. *)
Definition maxTimeValue : Z := 8640000000000000.

(** [new Date(v)] on a number: a time value out of range gives the invalid
    date. *)
Definition newDate (v : Z) : JsDate :=
  if Z.abs v <=? maxTimeValue then DateAt v else InvalidDate.

(** [t < d] and [t > d] for a time value [t] and a date [d]; a comparison
    with the invalid date is false. *)
Definition earlierThan (t : Z) (d : JsDate) : bool :=
  match d with
  | DateAt x => t <? x
  | InvalidDate => false
  end.

Definition laterThan (t : Z) (d : JsDate) : bool :=
  match d with
  | DateAt x => x <? t
  | InvalidDate => false
  end.

Record SearchOptions := {
  query : option string;
  days : option Z;
  since : option JsDate;
  until : option JsDate;
  tools : option (list string);
  filePattern : option string;
  limit : option Z
}.

(** Truthiness of an optional string: present and not empty. *)
Definition presentText (o : option string) : bool :=
  match o with
  | Some s => truthy s
  | None => false
  end.

(** ** scoreRelevance *)

(** The inner loop over the query terms: [score += weight] for each term the
    lowered field value includes. *)
Definition scoreTerms (weight : Z) (valueLower : string)
    (queryTerms : list string) (score : Z) : Z :=
  fold_left
    (fun score term => if includes valueLower term then score + weight else score)
    queryTerms score.

(** The outer loop over one field of the session. *)
Definition scoreField (weight : Z) (values : list string)
    (queryTerms : list string) (score : Z) : Z :=
  fold_left
    (fun score value => scoreTerms weight (toLowerCase value) queryTerms score)
    values score.

(** The list [matchedOn] of the source is filled but never read or returned;
    it is left out. *)
Definition scoreRelevance (s : ParsedSession) (query : string) : Z :=
  if negb (truthy query) then 1
  else
    let queryTerms := queryTermsOf query in
    let score := 0 in
    let score := scoreField 10 (userMessages s) queryTerms score in
    let score := scoreField 3 (toolsUsed s) queryTerms score in
    let score := scoreField 3 (filesFromToolCalls s) queryTerms score in
    score.

(** ** matchesFilters *)

Definition hasMatchingTool (s : ParsedSession) (requested : list string) : bool :=
  existsb
    (fun tool =>
       existsb (fun t => includes (toLowerCase t) (toLowerCase tool)) (toolsUsed s))
    requested.

Definition hasMatchingFile (s : ParsedSession) (filePattern : string) : bool :=
  let pattern := toLowerCase filePattern in
  existsb (fun f => includes (toLowerCase f) pattern) (filesFromToolCalls s).

(** The two guarded blocks of [matchesFilters]; each either rejects the
    session (the early [return false]) or lets it pass on. *)
Definition passesToolFilter (s : ParsedSession) (o : SearchOptions) : bool :=
  match tools o with
  | Some requested =>
      if (0 <? List.length requested)%nat
      then hasMatchingTool s requested
      else true
  | None => true
  end.

Definition passesFileFilter (s : ParsedSession) (o : SearchOptions) : bool :=
  match filePattern o with
  | Some p => if truthy p then hasMatchingFile s p else true
  | None => true
  end.

Definition matchesFilters (s : ParsedSession) (o : SearchOptions) : bool :=
  if negb (passesToolFilter s o) then false
  else if negb (passesFileFilter s o) then false
  else true.

(** ** The environment of a search *)

(** What [statSync] tells about a path: [mtime] is the time value of the
    modification date. *)
Record Stats := {
  isDirectory : bool;
  mtime : Z
}.

(** The three ways a call of [parseSessionFile] can end: a session, [null],
    or an exception. *)
Inductive ParseOutcome :=
| Parsed (s : ParsedSession)
| NoSession
| ParseThrows.

(** [readdirSync] and [statSync] answer [None] where the call throws.
    [join] is [path.join].  [parseSessionFile] stands for the parser of
    [shared/parser.ts], which is not among the sources: the environment gives
    its outcome on each path.  [clock k] is the time value that [new Date()]
    yields in the call of [findSessionFiles] for the [k]-th directory. *)
Record Env := {
  readdirSync : string -> option (list string);
  statSync : string -> option Stats;
  join : string -> string -> string;
  parseSessionFile : string -> ParseOutcome;
  clock : nat -> Z
}.

(** ** findSessionDirs and findSessionFiles *)

Definition findSessionDirs (env : Env) (baseDir : string) : list string :=
  match readdirSync env baseDir with
  | None => []
  | Some names =>
      filter
        (fun path =>
           match statSync env path with
           | Some st => isDirectory st
           | None => false
           end)
        (map (fun name => join env baseDir name) names)
  end.

(** The lower cutoff: the explicit [since] when there is one, else a date at
    [now - days * 24 * 60 * 60 * 1000] when [days] is truthy. *)
Definition sinceCutoff (now : Z) (o : SearchOptions) : option JsDate :=
  match since o with
  | Some d => Some d
  | None =>
      match days o with
      | Some n =>
          if negb (n =? 0)
          then Some (newDate (now - n * 24 * 60 * 60 * 1000))
          else None
      | None => None
      end
  end.

(** The test the loop applies to the modification time of one file:
    [since && stat.mtime < since] and [options.until && stat.mtime >
    options.until] both skip the file. *)
Definition withinWindow (sinceD untilD : option JsDate) (t : Z) : bool :=
  if match sinceD with Some d => earlierThan t d | None => false end then false
  else if match untilD with Some d => laterThan t d | None => false end then false
  else true.

(** The loop over the names of one directory.  The [try] encloses the whole
    loop: a [statSync] that throws ends it, and the paths pushed before are
    kept. *)
Fixpoint scanFiles (env : Env) (dir : string) (sinceD untilD : option JsDate)
    (names : list string) : list string :=
  match names with
  | [] => []
  | file :: rest =>
      if negb (endsWith file ".jsonl") then scanFiles env dir sinceD untilD rest
      else
        let filePath := join env dir file in
        match statSync env filePath with
        | None => []
        | Some stat =>
            if withinWindow sinceD untilD (mtime stat)
            then filePath :: scanFiles env dir sinceD untilD rest
            else scanFiles env dir sinceD untilD rest
        end
  end.

Definition findSessionFiles (env : Env) (now : Z) (dir : string)
    (o : SearchOptions) : list string :=
  match readdirSync env dir with
  | None => []
  | Some names => scanFiles env dir (sinceCutoff now o) (until o) names
  end.

(** ** searchSessions *)

(** The body of the loop over the files, as a step on the array [results]:
    each [continue], and the [catch], leaves it as it is; the [push] appends
    one result. *)
Definition visitFile (env : Env) (o : SearchOptions)
    (results : list SearchResult) (filePath : string) : list SearchResult :=
  match parseSessionFile env filePath with
  | ParseThrows => results
  | NoSession => results
  | Parsed s =>
      if (List.length (userMessages s) =? 0)%nat then results
      else if negb (matchesFilters s o) then results
      else
        let relevance :=
          match query o with
          | Some q => if truthy q then scoreRelevance s q else 1
          | None => 1
          end in
        if presentText (query o) && (relevance =? 0) then results
        else results ++ [ {| session := s;
                             relevance := relevance;
                             transcriptPath := filePath |} ]
  end.

(** The loop over the directories, from the [k]-th one on. *)
Fixpoint visitDirs (env : Env) (o : SearchOptions) (k : nat)
    (results : list SearchResult) (dirs : list string) : list SearchResult :=
  match dirs with
  | [] => results
  | dir :: rest =>
      let files := findSessionFiles env (clock env k) dir o in
      visitDirs env o (S k) (fold_left (visitFile env o) files results) rest
  end.

(** The array [results] when the loops are over, before it is sorted. *)
Definition collectResults (env : Env) (baseDir : string) (o : SearchOptions)
    : list SearchResult :=
  visitDirs env o 0%nat [] (findSessionDirs env baseDir).

(** [x || 0] on a number. *)
Definition orZero (x : Z) : Z := if x =? 0 then 0 else x.

(** The comparator handed to [sort]. *)
Definition compareResults (a b : SearchResult) : Z :=
  if negb (relevance a =? relevance b)
  then orZero (relevance b) - orZero (relevance a)
  else endedAt (session b) - endedAt (session a).

(** [Array.prototype.sort] with a comparator.  The sort is stable: [x] goes
    after the elements [y] with [compare x y > 0] and before the first other
    one; elements that compare as equal keep their order. *)
Fixpoint insertSorted {A : Type} (compare : A -> A -> Z) (x : A) (l : list A)
    : list A :=
  match l with
  | [] => [x]
  | y :: l' =>
      if 0 <? compare x y then y :: insertSorted compare x l' else x :: l
  end.

Definition sortArray {A : Type} (compare : A -> A -> Z) (l : list A) : list A :=
  fold_right (insertSorted compare) [] l.

(** [l.slice(0, finish)]: a negative [finish] counts from the end of the
    array. *)
Definition slice0 {A : Type} (l : list A) (finish : Z) : list A :=
  let len := Z.of_nat (List.length l) in
  let final := if finish <? 0 then Z.max (len + finish) 0 else Z.min finish len in
  firstn (Z.to_nat (Z.max final 0)) l.

(** [options.limit || 20] *)
Definition effectiveLimit (o : SearchOptions) : Z :=
  match limit o with
  | Some n => if n =? 0 then 20 else n
  | None => 20
  end.

Definition searchSessions (env : Env) (baseDir : string) (o : SearchOptions)
    : list SearchResult :=
  let results := collectResults env baseDir o in
  let results := sortArray compareResults results in
  let limit := effectiveLimit o in
  slice0 results limit.

(** ** The limit of the HTTP route *)

(** A number as [parseInt] and [Math.min] give it: [NaN], an integer that is
    a double, or one of the two infinite numbers. *)
Inductive JsNumber :=
| NaN
| Num (z : Z)
| PosInfinity
| NegInfinity.

(** The double nearest to an integer.  Up to 53 bits the integer is its own
    double.  Beyond, the bits below the 53 leading ones are rounded away, to
    the nearest and on a tie to the even one, and a magnitude that reaches
    2^1024 is infinite. *)
Definition doubleOfInteger (z : Z) : JsNumber :=
  let a := Z.abs z in
  let bits := Z.log2 a + 1 in
  if bits <=? 53 then Num z
  else
    let e := bits - 53 in
    let q := Z.shiftr a e in
    let r := a - Z.shiftl q e in
    let half := Z.shiftl 1 (e - 1) in
    let q' := if (half <? r) || ((r =? half) && Z.odd q) then q + 1 else q in
    let v := Z.shiftl q' e in
    if 2 ^ 1024 <=? v
    then (if z <? 0 then NegInfinity else PosInfinity)
    else Num (if z <? 0 then - v else v).

Fixpoint dropWhitespace (s : string) : string :=
  match s with
  | EmptyString => EmptyString
  | String c s' => if isWhitespace c then dropWhitespace s' else s
  end.

Definition digitValue (c : ascii) : option Z :=
  let n := codeUnit c in
  if ((48 <=? n) && (n <=? 57))%N then Some (Z.of_N n - 48) else None.

(** The value of the longest run of decimal digits at the start of [s];
    [acc] is the value read so far, [None] before the first digit. *)
Fixpoint readDigits (acc : option Z) (s : string) : option Z :=
  match s with
  | EmptyString => acc
  | String c s' =>
      match digitValue c with
      | Some d =>
          readDigits (Some (10 * match acc with Some a => a | None => 0 end + d)) s'
      | None => acc
      end
  end.

(** [parseInt(s, 10)]: leading whitespace, an optional sign, then digits;
    [NaN] when no digit follows, and otherwise the double nearest to the
    integer the digits write.  (Past the 20th significant digit the standard
    also lets an engine read the digits as 0; here every digit counts.) *)
Definition parseInt10 (s : string) : JsNumber :=
  let s := dropWhitespace s in
  let '(sign, digits) :=
    match s with
    | String "-"%char s' => (-1, s')
    | String "+"%char s' => (1, s')
    | _ => (1, s)
    end in
  match readDigits None digits with
  | Some n => doubleOfInteger (sign * n)
  | None => NaN
  end.

(** [Math.min]: [NaN] when either number is, else the smaller one. *)
Definition mathMin (a b : JsNumber) : JsNumber :=
  match a, b with
  | NaN, _ => NaN
  | _, NaN => NaN
  | NegInfinity, _ => NegInfinity
  | _, NegInfinity => NegInfinity
  | PosInfinity, y => y
  | x, PosInfinity => x
  | Num x, Num y => Num (Z.min x y)
  end.

(** [Math.min(parseInt(limitStr || '20', 10), 100)], the limit that the route
    [GET /sessions] of [postgres/api.ts] writes into its query. *)
Definition routeLimit (limitStr : option string) : JsNumber :=
  let text :=
    match limitStr with
    | Some s => if truthy s then s else "20"
    | None => "20"
    end in
  mathMin (parseInt10 text) (Num 100).

(** ** Calendar dates of the scenarios *)

(** The time value of midnight UTC on a civil date, as [new Date("y-m-d")]
    gives it. *)
Definition utcMidnight (y m d : Z) : Z :=
  let y' := if m <=? 2 then y - 1 else y in
  let era := y' / 400 in
  let yoe := y' - era * 400 in
  let doy := (153 * (m + (if 2 <? m then -3 else 9)) + 2) / 5 + d - 1 in
  let doe := yoe * 365 + yoe / 4 - yoe / 100 + doy in
  (era * 146097 + doe - 719468) * 86400000.

(** ** The specification's vocabulary *)

(** [t] occurs in [s]: some code units, then [t], then the rest. *)
Definition occursIn (t s : string) : Prop :=
  exists before after, s = before ++ t ++ after.

(** Case-insensitive substring: after lowering both sides. *)
Definition occursInIgnoringCase (t s : string) : Prop :=
  occursIn (toLowerCase t) (toLowerCase s).

Fixpoint allWhitespace (s : string) : Prop :=
  match s with
  | EmptyString => True
  | String c s' => isWhitespace c = true /\ allWhitespace s'
  end.

Fixpoint noWhitespace (s : string) : Prop :=
  match s with
  | EmptyString => True
  | String c s' => isWhitespace c = false /\ noWhitespace s'
  end.

(** [s] is at its end or goes on with whitespace. *)
Definition atBoundary (s : string) : Prop :=
  match s with
  | EmptyString => True
  | String c _ => isWhitespace c = true
  end.

(** Tokenizing by whitespace: [Tokens s ts] holds when [ts] lists, in order,
    the maximal whitespace-free runs of [s]. *)
Inductive Tokens : string -> list string -> Prop :=
| Tokens_blank (s : string) :
    allWhitespace s -> Tokens s []
| Tokens_word (gap word rest : string) (ts : list string) :
    allWhitespace gap ->
    word <> EmptyString ->
    noWhitespace word ->
    atBoundary rest ->
    Tokens rest ts ->
    Tokens (gap ++ word ++ rest) (word :: ts).

(** Number of pairs of a field value and a query term where the term occurs
    in the lowered value. *)
Definition matchCount (values terms : list string) : Z :=
  Z.of_nat
    (List.length
       (filter (fun p => includes (toLowerCase (fst p)) (snd p))
               (list_prod values terms))).

(** The score as the specification words it: fixed weights summed over the
    matches, 10 per term and user message, 3 per term and tool name, 3 per
    term and file path. *)
Definition weightedMatchSum (s : ParsedSession) (terms : list string) : Z :=
  10 * matchCount (userMessages s) terms
  + 3 * matchCount (toolsUsed s) terms
  + 3 * matchCount (filesFromToolCalls s) terms.

(** The closed window [[since, until]]; a bound that is absent or the invalid
    date admits every time. *)
Definition inWindow (sinceD untilD : option JsDate) (t : Z) : Prop :=
  (forall d, sinceD = Some (DateAt d) -> d <= t)
  /\ (forall d, untilD = Some (DateAt d) -> t <= d).

(** The order of the result list: higher relevance first, and among equal
    relevance the later [endedAt] first. *)
Definition ranksBefore (a b : SearchResult) : Prop :=
  relevance b < relevance a
  \/ (relevance a = relevance b /\ endedAt (session b) <= endedAt (session a)).

(** The pair a result is ranked by. *)
Definition rankKey (r : SearchResult) : Z * Z :=
  (relevance r, endedAt (session r)).

Definition keyBefore (k1 k2 : Z * Z) : Prop :=
  fst k2 < fst k1 \/ (fst k1 = fst k2 /\ snd k2 <= snd k1).

(** What a result pushed for [filePath] looks like: the file parsed to a
    session with user messages that passes the filters, and the relevance is
    the score of the query, or 1 without a query. *)
Definition pushedFor (env : Env) (o : SearchOptions) (r : SearchResult) : Prop :=
  parseSessionFile env (transcriptPath r) = Parsed (session r)
  /\ userMessages (session r) <> []
  /\ matchesFilters (session r) o = true
  /\ match query o with
     | Some q =>
         if truthy q
         then relevance r = scoreRelevance (session r) q /\ relevance r <> 0
         else relevance r = 1
     | None => relevance r = 1
     end.

(** ** Concrete corpora for the scenarios *)

Record FileSpec := {
  fileName : string;
  fileMtime : Z;
  fileOutcome : ParseOutcome
}.

Definition pathJoin (a b : string) : string := a ++ "/" ++ b.

Definition findFile (files : list FileSpec) (path : string) : option FileSpec :=
  find (fun f => String.eqb path (pathJoin "base/project" (fileName f))) files.

(** A sessions directory ["base"] with one project directory holding
    [files], read at time [now]. *)
Definition corpusEnv (now : Z) (files : list FileSpec) : Env :=
  {| readdirSync := fun p =>
       if String.eqb p "base" then Some ["project"]
       else if String.eqb p "base/project" then Some (map fileName files)
       else None;
     statSync := fun p =>
       if String.eqb p "base/project"
       then Some {| isDirectory := true; mtime := 0 |}
       else match findFile files p with
            | Some f => Some {| isDirectory := false; mtime := fileMtime f |}
            | None => None
            end;
     join := pathJoin;
     parseSessionFile := fun p =>
       match findFile files p with
       | Some f => fileOutcome f
       | None => ParseThrows
       end;
     clock := fun _ => now |}.

Definition blankSession : ParsedSession :=
  {| id := ""; startedAt := 0; endedAt := 0;
     gitBranch := None; cwd := None; version := None;
     messageCount := 0; inputTokens := 0; outputTokens := 0;
     cacheCreationTokens := 0; cacheReadTokens := 0;
     toolsUsed := []; filesFromToolCalls := []; userMessages := [];
     modelsUsed := []; summary := None; category := None |}.

Definition withMessages (s : ParsedSession) (ms : list string) : ParsedSession :=
  {| id := id s; startedAt := startedAt s; endedAt := endedAt s;
     gitBranch := gitBranch s; cwd := cwd s; version := version s;
     messageCount := messageCount s; inputTokens := inputTokens s;
     outputTokens := outputTokens s;
     cacheCreationTokens := cacheCreationTokens s;
     cacheReadTokens := cacheReadTokens s;
     toolsUsed := toolsUsed s; filesFromToolCalls := filesFromToolCalls s;
     userMessages := ms;
     modelsUsed := modelsUsed s; summary := summary s; category := category s |}.

Definition withTools (s : ParsedSession) (ts : list string) : ParsedSession :=
  {| id := id s; startedAt := startedAt s; endedAt := endedAt s;
     gitBranch := gitBranch s; cwd := cwd s; version := version s;
     messageCount := messageCount s; inputTokens := inputTokens s;
     outputTokens := outputTokens s;
     cacheCreationTokens := cacheCreationTokens s;
     cacheReadTokens := cacheReadTokens s;
     toolsUsed := ts; filesFromToolCalls := filesFromToolCalls s;
     userMessages := userMessages s;
     modelsUsed := modelsUsed s; summary := summary s; category := category s |}.

Definition withEndedAt (s : ParsedSession) (t : Z) : ParsedSession :=
  {| id := id s; startedAt := startedAt s; endedAt := t;
     gitBranch := gitBranch s; cwd := cwd s; version := version s;
     messageCount := messageCount s; inputTokens := inputTokens s;
     outputTokens := outputTokens s;
     cacheCreationTokens := cacheCreationTokens s;
     cacheReadTokens := cacheReadTokens s;
     toolsUsed := toolsUsed s; filesFromToolCalls := filesFromToolCalls s;
     userMessages := userMessages s;
     modelsUsed := modelsUsed s; summary := summary s; category := category s |}.

Definition withSummary (s : ParsedSession) (text category' : option string)
    : ParsedSession :=
  {| id := id s; startedAt := startedAt s; endedAt := endedAt s;
     gitBranch := gitBranch s; cwd := cwd s; version := version s;
     messageCount := messageCount s; inputTokens := inputTokens s;
     outputTokens := outputTokens s;
     cacheCreationTokens := cacheCreationTokens s;
     cacheReadTokens := cacheReadTokens s;
     toolsUsed := toolsUsed s; filesFromToolCalls := filesFromToolCalls s;
     userMessages := userMessages s;
     modelsUsed := modelsUsed s; summary := text; category := category' |}.

Definition noOptions : SearchOptions :=
  {| query := None; days := None; since := None; until := None;
     tools := None; filePattern := None; limit := None |}.

Definition withQuery (o : SearchOptions) (q : string) : SearchOptions :=
  {| query := Some q; days := days o; since := since o; until := until o;
     tools := tools o; filePattern := filePattern o; limit := limit o |}.

Definition withDays (o : SearchOptions) (n : Z) : SearchOptions :=
  {| query := query o; days := Some n; since := since o; until := until o;
     tools := tools o; filePattern := filePattern o; limit := limit o |}.

Definition withSince (o : SearchOptions) (d : JsDate) : SearchOptions :=
  {| query := query o; days := days o; since := Some d; until := until o;
     tools := tools o; filePattern := filePattern o; limit := limit o |}.

Definition withTools_requested (o : SearchOptions) (ts : list string) : SearchOptions :=
  {| query := query o; days := days o; since := since o; until := until o;
     tools := Some ts; filePattern := filePattern o; limit := limit o |}.

Definition withoutTools (o : SearchOptions) : SearchOptions :=
  {| query := query o; days := days o; since := since o; until := until o;
     tools := None; filePattern := filePattern o; limit := limit o |}.

Definition withLimit (o : SearchOptions) (n : Z) : SearchOptions :=
  {| query := query o; days := days o; since := since o; until := until o;
     tools := tools o; filePattern := filePattern o; limit := Some n |}.

(** The session of the email scenario. *)
Definition emailSession : ParsedSession :=
  withTools
    (withMessages blankSession ["Let's build an email filter"; "Yes, ship it"])
    ["Edit"; "Bash"].

Definition emailFile : FileSpec :=
  {| fileName := "email.jsonl";
     fileMtime := utcMidnight 2025 1 19;
     fileOutcome := Parsed emailSession |}.

Definition emailCorpus : Env :=
  corpusEnv (utcMidnight 2025 1 20) [emailFile].

(** The email session next to a session without user messages, a file that
    parses to [null] and a file the parser throws on. *)
Definition mixedCorpus : Env :=
  corpusEnv (utcMidnight 2025 1 20)
    [ {| fileName := "empty.jsonl";
         fileMtime := utcMidnight 2025 1 19;
         fileOutcome := Parsed (withTools blankSession ["Edit"]) |};
      emailFile;
      {| fileName := "null.jsonl";
         fileMtime := utcMidnight 2025 1 19;
         fileOutcome := NoSession |};
      {| fileName := "broken.jsonl";
         fileMtime := utcMidnight 2025 1 19;
         fileOutcome := ParseThrows |} ].

Definition emailResult : SearchResult :=
  {| session := emailSession;
     relevance := 1;
     transcriptPath := "base/project/email.jsonl" |}.

(** A session with one user message that ended at [t]. *)
Definition sessionEnding (t : Z) : ParsedSession :=
  withEndedAt (withMessages blankSession ["Fix the email parser"]) t.

(** A file modified at [modified] whose session ended at [ended]. *)
Definition sessionFile (name : string) (modified ended : Z) : FileSpec :=
  {| fileName := name;
     fileMtime := modified;
     fileOutcome := Parsed (sessionEnding ended) |}.

Definition jan10File : FileSpec :=
  sessionFile "jan10.jsonl" (utcMidnight 2025 1 10) (utcMidnight 2025 1 10).

Definition jan15File : FileSpec :=
  sessionFile "jan15.jsonl" (utcMidnight 2025 1 15) (utcMidnight 2025 1 15).

Definition jan18File : FileSpec :=
  sessionFile "jan18.jsonl" (utcMidnight 2025 1 18) (utcMidnight 2025 1 18).

(** Two sessions of equal score, listed by the directory in either order. *)
Definition tieCorpus : Env :=
  corpusEnv (utcMidnight 2025 1 20) [jan10File; jan15File].

Definition tieCorpusReversed : Env :=
  corpusEnv (utcMidnight 2025 1 20) [jan15File; jan10File].

(** The corpus of the date scenario, read on 2025-01-20. *)
Definition windowCorpus : Env :=
  corpusEnv (utcMidnight 2025 1 20) [jan10File; jan18File].

(** A session that ended on 2025-01-10 in a file modified on 2025-01-18. *)
Definition staleCorpus : Env :=
  corpusEnv (utcMidnight 2025 1 20)
    [ sessionFile "stale.jsonl" (utcMidnight 2025 1 18) (utcMidnight 2025 1 10) ].

(** A session that ended on 2025-01-18 in a file whose modification time is
    2025-01-10. *)
Definition restoredCorpus : Env :=
  corpusEnv (utcMidnight 2025 1 20)
    [ sessionFile "restored.jsonl" (utcMidnight 2025 1 10) (utcMidnight 2025 1 18) ].

Fixpoint tally (k : nat) : string :=
  match k with
  | O => EmptyString
  | S k' => String "x"%char (tally k')
  end.

(** [n] session files with distinct names. *)
Definition manyFiles (n : nat) : list FileSpec :=
  map (fun k => sessionFile (tally k ++ ".jsonl")
                            (utcMidnight 2025 1 18) (utcMidnight 2025 1 18))
      (seq 0 n).

Definition largeCorpus : Env :=
  corpusEnv (utcMidnight 2025 1 20) (manyFiles 101).

(** The result the email session gives for the query ["email"]. *)
Definition emailHit : SearchResult :=
  {| session := emailSession;
     relevance := 10;
     transcriptPath := "base/project/email.jsonl" |}.

(** A session whose only tool is ["Edit"]. *)
Definition editSession : ParsedSession :=
  withTools (withMessages blankSession ["Rename the module"]) ["Edit"].

(** ** Command-line values and request parameters *)

(** [s.split(sep)] for a separator of one code unit: the pieces between the
    separators, empty pieces included; the empty string gives one empty
    piece. *)
Fixpoint splitOnFrom (sep : ascii) (piece : string) (s : string) : list string :=
  match s with
  | EmptyString => [piece]
  | String c s' =>
      if Ascii.eqb c sep
      then piece :: splitOnFrom sep EmptyString s'
      else splitOnFrom sep (piece ++ String c EmptyString) s'
  end.

(** [s.split(',')] *)
Definition splitComma (s : string) : list string :=
  splitOnFrom ","%char EmptyString s.

(** [String.prototype.trimEnd] and [String.prototype.trim]; the start is
    trimmed by [dropWhitespace]. *)
Fixpoint trimEnd (s : string) : string :=
  match s with
  | EmptyString => EmptyString
  | String c s' =>
      match trimEnd s' with
      | EmptyString => if isWhitespace c then EmptyString else String c EmptyString
      | String d t => String c (String d t)
      end
  end.

Definition trim (s : string) : string := trimEnd (dropWhitespace s).

(** [tools.split(',').map((t) => t.trim())], the list the route hands to the
    database for its [tools] parameter. *)
Definition routeToolList (toolsParam : string) : list string :=
  map trim (splitComma toolsParam).

(** The text-search query of the route:
    [search.split(/\s+/).filter(Boolean).map((term) => `${term}:*`).join(' & ')] *)
Definition tsQueryOf (search : string) : string :=
  String.concat " & "
    (map (fun term => term ++ ":*") (filter truthy (splitWhitespace search))).

(** The values [parseArgs] hands to [main]: each option is a string when it
    was given. *)
Record CliValues := {
  arg_query : option string;
  arg_days : option string;
  arg_since : option string;
  arg_until : option string;
  arg_tools : option string;
  arg_filePattern : option string;
  arg_limit : option string
}.

(** A number as an option field: [NaN] is falsy wherever the options are
    read, and is held as an absent number.  An infinite number is held as
    2^1024 with its sign, the magnitude no finite double reaches: the search
    only cuts an array at the limit and only sets the cutoff [days] days
    before a time value, and there 2^1024 acts as the infinite number does. *)
Definition numberField (n : JsNumber) : option Z :=
  match n with
  | Num z => Some z
  | NaN => None
  | PosInfinity => Some (2 ^ 1024)
  | NegInfinity => Some (- 2 ^ 1024)
  end.

(** [value ? f(value) : otherwise] on an optional string. *)
Definition whenGiven {A : Type} (value : option string) (f : string -> A)
    (otherwise : A) : A :=
  match value with
  | Some s => if truthy s then f s else otherwise
  | None => otherwise
  end.

(** The [options] object that [main] builds.  [parseDate] stands for
    [new Date(text)] on a string. *)
Definition cliOptions (parseDate : string -> JsDate) (values : CliValues)
    : SearchOptions :=
  {| query := arg_query values;
     days := whenGiven (arg_days values) (fun s => numberField (parseInt10 s)) None;
     since := whenGiven (arg_since values) (fun s => Some (parseDate s)) None;
     until := whenGiven (arg_until values) (fun s => Some (parseDate s)) None;
     tools := whenGiven (arg_tools values) (fun s => Some (splitComma s)) None;
     filePattern := arg_filePattern values;
     limit := whenGiven (arg_limit values)
                (fun s => numberField (parseInt10 s)) (Some 20) |}.

(** ** Further vocabulary *)

Definition withoutFilePattern (o : SearchOptions) : SearchOptions :=
  {| query := query o; days := days o; since := since o; until := until o;
     tools := tools o; filePattern := None; limit := limit o |}.

Definition withFilePattern (o : SearchOptions) (p : string) : SearchOptions :=
  {| query := query o; days := days o; since := since o; until := until o;
     tools := tools o; filePattern := Some p; limit := limit o |}.

Definition withFiles (s : ParsedSession) (fs : list string) : ParsedSession :=
  {| id := id s; startedAt := startedAt s; endedAt := endedAt s;
     gitBranch := gitBranch s; cwd := cwd s; version := version s;
     messageCount := messageCount s; inputTokens := inputTokens s;
     outputTokens := outputTokens s;
     cacheCreationTokens := cacheCreationTokens s;
     cacheReadTokens := cacheReadTokens s;
     toolsUsed := toolsUsed s; filesFromToolCalls := fs;
     userMessages := userMessages s;
     modelsUsed := modelsUsed s; summary := summary s; category := category s |}.

(** The three fields that are searched, lowered. *)
Definition loweredFields (s : ParsedSession) : ParsedSession :=
  withFiles
    (withTools (withMessages s (map toLowerCase (userMessages s)))
               (map toLowerCase (toolsUsed s)))
    (map toLowerCase (filesFromToolCalls s)).

(** Two results are ranked alike. *)
Definition sameRank (a b : SearchResult) : bool :=
  (relevance a =? relevance b) && (endedAt (session a) =? endedAt (session b)).

(** A session of the email scenario that also touched a file. *)
Definition emailSessionWithFile : ParsedSession :=
  withFiles emailSession ["src/api/Email.ts"].

(** The corpus of the date scenario with one more entry, between the two
    files, that vanished before [statSync] reached it. *)
Definition ghostCorpus : Env :=
  {| readdirSync := fun p =>
       if String.eqb p "base/project"
       then Some ["jan10.jsonl"; "ghost.jsonl"; "jan18.jsonl"]
       else readdirSync windowCorpus p;
     statSync := statSync windowCorpus;
     join := join windowCorpus;
     parseSessionFile := parseSessionFile windowCorpus;
     clock := clock windowCorpus |}.

(** The results the two sessions of the tie scenario give in a listing. *)
Definition jan10Result : SearchResult :=
  {| session := sessionEnding (utcMidnight 2025 1 10);
     relevance := 1;
     transcriptPath := "base/project/jan10.jsonl" |}.

Definition jan15Result : SearchResult :=
  {| session := sessionEnding (utcMidnight 2025 1 15);
     relevance := 1;
     transcriptPath := "base/project/jan15.jsonl" |}.

(** [s] holds no code unit [sep]. *)
Fixpoint lacks (sep : ascii) (s : string) : Prop :=
  match s with
  | EmptyString => True
  | String c s' => c <> sep /\ lacks sep s'
  end.

(** [s] does not begin, and does not end, with whitespace. *)
Definition startsClean (s : string) : Prop :=
  match s with
  | EmptyString => True
  | String c _ => isWhitespace c = false
  end.

Fixpoint endsClean (s : string) : Prop :=
  match s with
  | EmptyString => True
  | String c EmptyString => isWhitespace c = false
  | String _ s' => endsClean s'
  end.

(** [entry] is [piece] without the whitespace around it. *)
Definition trimmedFrom (piece entry : string) : Prop :=
  exists lead trail,
    allWhitespace lead /\ allWhitespace trail
    /\ piece = lead ++ entry ++ trail
    /\ startsClean entry /\ endsClean entry.

(** No option given on the command line. *)
Definition noValues : CliValues :=
  {| arg_query := None; arg_days := None; arg_since := None;
     arg_until := None; arg_tools := None; arg_filePattern := None;
     arg_limit := None |}.

Definition toolsValue (v : CliValues) (text : string) : CliValues :=
  {| arg_query := arg_query v; arg_days := arg_days v;
     arg_since := arg_since v; arg_until := arg_until v;
     arg_tools := Some text; arg_filePattern := arg_filePattern v;
     arg_limit := arg_limit v |}.

Definition limitValue (v : CliValues) (text : string) : CliValues :=
  {| arg_query := arg_query v; arg_days := arg_days v;
     arg_since := arg_since v; arg_until := arg_until v;
     arg_tools := arg_tools v; arg_filePattern := arg_filePattern v;
     arg_limit := Some text |}.

Definition daysValue (v : CliValues) (text : string) : CliValues :=
  {| arg_query := arg_query v; arg_days := Some text;
     arg_since := arg_since v; arg_until := arg_until v;
     arg_tools := arg_tools v; arg_filePattern := arg_filePattern v;
     arg_limit := arg_limit v |}.

Definition sinceValue (v : CliValues) (text : string) : CliValues :=
  {| arg_query := arg_query v; arg_days := arg_days v;
     arg_since := Some text; arg_until := arg_until v;
     arg_tools := arg_tools v; arg_filePattern := arg_filePattern v;
     arg_limit := arg_limit v |}.

(** A date parser that knows one date and rejects every other text. *)
Definition parseKnownDate (text : string) : JsDate :=
  if String.eqb text "2025-01-13" then DateAt (utcMidnight 2025 1 13)
  else InvalidDate.

(** The relevance [searchSessions] gives a session: its score when a query
    is present, 1 otherwise. *)
Definition relevanceFor (o : SearchOptions) (s : ParsedSession) : Z :=
  match query o with
  | Some q => if truthy q then scoreRelevance s q else 1
  | None => 1
  end.

(** PostgreSQL's [stored ?| names] on a JSON array of strings: one of the
    names is an element of the array.  An element is compared whole and with
    its letter case. *)
Definition jsonbExistsAny (stored names : list string) : bool :=
  existsb (fun name => existsb (String.eqb name) stored) names.

(** The condition the route [GET /sessions] adds for its [tools] parameter:
    none when the parameter is missing or empty, and otherwise
    [tools_used ?| $n] with the trimmed pieces of the parameter. *)
Definition routeAdmitsTools (toolsParam : option string)
    (tools_used : list string) : bool :=
  match toolsParam with
  | Some text =>
      if truthy text
      then jsonbExistsAny tools_used (routeToolList text)
      else true
  | None => true
  end.

(** ** Sanity checks of the embedding on concrete inputs *)

Example lower_mixed : toLowerCase "Let's BUILD an Email" = "let's build an email".
Proof. reflexivity. Qed.

Example includes_inner : includes "let's build an email filter" "email" = true.
Proof. reflexivity. Qed.

Example includes_absent : includes "yes, ship it" "email" = false.
Proof. reflexivity. Qed.

Example split_runs : splitWhitespace " a  b " = [""; "a"; "b"; ""].
Proof. reflexivity. Qed.

Example split_empty : splitWhitespace "" = [""].
Proof. reflexivity. Qed.

Example terms_of_query : queryTermsOf "  Email   FILTER " = ["email"; "filter"].
Proof. reflexivity. Qed.

Example endsWith_jsonl : endsWith "abc.jsonl" ".jsonl" = true /\ endsWith "abc.json" ".jsonl" = false.
Proof. split; reflexivity. Qed.

Example parseInt_cases :
  parseInt10 "500" = Num 500 /\ parseInt10 "  -5px" = Num (-5) /\ parseInt10 "abc" = NaN.
Proof. repeat split; reflexivity. Qed.

Example parseInt_rounds_to_double :
  parseInt10 "9007199254740992" = Num 9007199254740992
  /\ parseInt10 "9007199254740993" = Num 9007199254740992
  /\ parseInt10 "-9007199254740993" = Num (-9007199254740992)
  /\ parseInt10 "9007199254740995" = Num 9007199254740996
  /\ parseInt10 "18014398509481987" = Num 18014398509481988
  /\ parseInt10 "123456789012345678901234567890"
     = Num 123456789012345677877719597056.
Proof. repeat split; vm_compute; reflexivity. Qed.

Example epoch_2025_01_20 : utcMidnight 2025 1 20 = 1737331200000.
Proof. reflexivity. Qed.

Example sort_is_stable :
  sortArray (fun a b : Z * Z => fst b - fst a) [(1, 0); (2, 1); (1, 2); (2, 3)]
  = [(2, 1); (2, 3); (1, 0); (1, 2)].
Proof. reflexivity. Qed.

Example parseInt_overflows :
  parseInt10 (String.concat "" (repeat "9" 308))
  = Num 100000000000000001097906362944045541740492309677311846336810682903157585404911491537163328978494688899061249669721172515611590283743140088328307009198146046031271664502933027185697489699588559043338384466165001178426897626212945177628091195786707458122783970171784415105291802893207873272974885715430223118336
  /\ parseInt10 (String.concat "" (repeat "9" 309)) = PosInfinity
  /\ parseInt10 ("-" ++ String.concat "" (repeat "9" 309)) = NegInfinity.
Proof. repeat split; vm_compute; reflexivity. Qed.

Example explicit_since_wins :
  sinceCutoff (utcMidnight 2025 1 20)
    (withSince (withDays noOptions 7) (DateAt (utcMidnight 2025 1 1)))
  = Some (DateAt (utcMidnight 2025 1 1))
  /\ sinceCutoff (utcMidnight 2025 1 20) (withDays noOptions 7)
     = Some (DateAt (utcMidnight 2025 1 13))
  /\ sinceCutoff (utcMidnight 2025 1 20) (withDays noOptions (-200000000))
     = Some InvalidDate.
Proof. repeat split; reflexivity. Qed.

Example route_limit_cases :
  routeLimit (Some "500") = Num 100 /\ routeLimit (Some "7") = Num 7
  /\ routeLimit (Some "") = Num 20 /\ routeLimit (Some "0") = Num 0
  /\ routeLimit (Some "-5") = Num (-5) /\ routeLimit (Some "many") = NaN.
Proof. repeat split; reflexivity. Qed.

Example slice_cases :
  slice0 [1; 2; 3] 2 = [1; 2] /\ slice0 [1; 2; 3] 5 = [1; 2; 3]
  /\ slice0 [1; 2; 3] (-1) = [1; 2] /\ slice0 [1; 2; 3] (-7) = [].
Proof. repeat split; reflexivity. Qed.

(** ** Strings: [includes] is the substring test *)

Section StringFacts.

Lemma startsWith_prefix (s t : string) :
  startsWith s t = true <-> exists rest, s = t ++ rest.
Proof.
  revert s; induction t as [|b t IH]; intros s; simpl.
  - split; [intros _; exists s; reflexivity | reflexivity].
  - destruct s as [|a s].
    + split; [discriminate | intros [rest H]; discriminate].
    + rewrite andb_true_iff, IH, Ascii.eqb_eq. split.
      * intros [-> [rest ->]]. exists rest. reflexivity.
      * intros [rest H]. injection H as -> ->. split; [reflexivity | now exists rest].
Qed.

Lemma includes_occursIn (s t : string) :
  includes s t = true <-> occursIn t s.
Proof.
  unfold occursIn. induction s as [|a s IH].
  - simpl includes. rewrite startsWith_prefix. split.
    + intros [rest H]. exists EmptyString, rest. exact H.
    + intros [before [after H]]. destruct before as [|c before]; [|discriminate].
      exists after. exact H.
  - change (includes (String a s) t)
      with (startsWith (String a s) t || includes s t)%bool.
    rewrite orb_true_iff, startsWith_prefix, IH. split.
    + intros [[rest H] | [before [after H]]].
      * exists EmptyString, rest. exact H.
      * exists (String a before), after. simpl. now rewrite H.
    + intros [before [after H]]. destruct before as [|c before].
      * left. exists after. exact H.
      * right. simpl in H. injection H as _ H. now exists before, after.
Qed.

Lemma truthy_nonempty (s : string) : truthy s = true <-> s <> EmptyString.
Proof. destruct s; simpl; split; congruence. Qed.

Lemma append_empty_r (s : string) : s ++ EmptyString = s.
Proof. induction s as [|c s IH]; simpl; [reflexivity | now rewrite IH]. Qed.

Lemma append_assoc (a b c : string) : (a ++ b) ++ c = a ++ (b ++ c).
Proof. induction a as [|x a IH]; simpl; [reflexivity | now rewrite IH]. Qed.

Lemma noWhitespace_snoc (piece : string) (c : ascii) :
  noWhitespace piece -> isWhitespace c = false ->
  noWhitespace (piece ++ String c EmptyString).
Proof.
  induction piece as [|x piece IH]; simpl; intros Hp Hc.
  - split; [exact Hc | exact I].
  - destruct Hp as [Hx Hp]. split; [exact Hx | now apply IH].
Qed.

Lemma allWhitespace_lower (s : string) :
  allWhitespace s -> allWhitespace (toLowerCase s).
Proof.
  induction s as [|c s IH]; simpl; [trivial|].
  intros [Hc Hs]. split; [|now apply IH].
  unfold lowerCodeUnit, isWhitespace, codeUnit in *.
  destruct c as [[] [] [] [] [] [] [] []]; vm_compute in Hc |- *;
    first [ discriminate Hc | reflexivity ].
Qed.

End StringFacts.

(** ** Tokenization *)

Section Tokenization.

Lemma Tokens_skip (c : ascii) (s : string) (ts : list string) :
  isWhitespace c = true -> Tokens s ts -> Tokens (String c s) ts.
Proof.
  intros Hc H. destruct H as [s Hs | gap word rest ts Hg Hw Hn Hb Hr].
  - apply Tokens_blank. simpl. now split.
  - change (String c (gap ++ word ++ rest)) with (String c gap ++ word ++ rest).
    apply Tokens_word; simpl; auto.
Qed.

Lemma splitFrom_Tokens (s piece : string) (inRun : bool) :
  noWhitespace piece ->
  (inRun = true -> piece = EmptyString) ->
  Tokens (piece ++ s) (filter truthy (splitFrom piece inRun s)).
Proof.
  revert piece inRun. induction s as [|c s IH]; intros piece inRun Hp Hrun.
  - simpl. rewrite append_empty_r. destruct piece as [|x piece]; simpl.
    + now apply Tokens_blank.
    + rewrite <- (append_empty_r (String x piece)) at 1.
      change (String x piece ++ EmptyString)
        with (EmptyString ++ String x piece ++ EmptyString).
      apply Tokens_word; simpl; auto; try discriminate.
      now apply Tokens_blank.
  - simpl splitFrom. destruct (isWhitespace c) eqn:Hc.
    + assert (Hrest : Tokens (String c s)
                        (filter truthy (splitFrom EmptyString true s))).
      { apply Tokens_skip; [exact Hc|].
        apply (IH EmptyString true); simpl; auto. }
      destruct inRun.
      * rewrite (Hrun eq_refl). exact Hrest.
      * destruct piece as [|x piece]; [exact Hrest|].
        simpl filter.
        change (String x piece ++ String c s)
          with (EmptyString ++ String x piece ++ String c s).
        apply Tokens_word; simpl; auto; discriminate.
    + replace (piece ++ String c s)
        with ((piece ++ String c EmptyString) ++ s)
        by (rewrite append_assoc; reflexivity).
      apply IH; [now apply noWhitespace_snoc | discriminate].
Qed.

(** The query terms are the whitespace-separated tokens of the lowered
    query. *)
Lemma queryTermsOf_Tokens (q : string) :
  Tokens (toLowerCase q) (queryTermsOf q).
Proof.
  unfold queryTermsOf, splitWhitespace.
  apply (splitFrom_Tokens (toLowerCase q) EmptyString false);
    [exact I | discriminate].
Qed.

Lemma word_then_rest_unique (w1 w2 r1 r2 : string) :
  noWhitespace w1 -> noWhitespace w2 -> atBoundary r1 -> atBoundary r2 ->
  w1 ++ r1 = w2 ++ r2 -> w1 = w2 /\ r1 = r2.
Proof.
  revert w2. induction w1 as [|c w1 IH]; intros w2 H1 H2 B1 B2 E.
  - destruct w2 as [|d w2]; [now split|].
    simpl in E. subst r1. simpl in B1, H2. destruct H2 as [Hd _]. congruence.
  - destruct w2 as [|d w2].
    + simpl in E. subst r2. simpl in B2, H1. destruct H1 as [Hc _]. congruence.
    + simpl in E. injection E as -> E. simpl in H1, H2.
      destruct H1 as [_ H1], H2 as [_ H2].
      destruct (IH w2 H1 H2 B1 B2 E) as [-> ->]. now split.
Qed.

Lemma gap_then_word_unique (g1 g2 w1 w2 r1 r2 : string) :
  allWhitespace g1 -> allWhitespace g2 ->
  w1 <> EmptyString -> w2 <> EmptyString ->
  noWhitespace w1 -> noWhitespace w2 -> atBoundary r1 -> atBoundary r2 ->
  g1 ++ w1 ++ r1 = g2 ++ w2 ++ r2 -> g1 = g2 /\ w1 = w2 /\ r1 = r2.
Proof.
  revert g2. induction g1 as [|c g1 IH]; intros g2 G1 G2 N1 N2 H1 H2 B1 B2 E.
  - destruct g2 as [|d g2].
    + simpl in E. split; [reflexivity|]. now apply word_then_rest_unique.
    + destruct w1 as [|x w1]; [contradiction|].
      simpl in E. injection E as -> _. simpl in G2, H1.
      destruct G2 as [Hd _], H1 as [Hx _]. congruence.
  - destruct g2 as [|d g2].
    + destruct w2 as [|x w2]; [contradiction|].
      simpl in E. injection E as -> _. simpl in G1, H2.
      destruct G1 as [Hc _], H2 as [Hx _]. congruence.
    + simpl in E. injection E as -> E. simpl in G1, G2.
      destruct G1 as [_ G1], G2 as [_ G2].
      destruct (IH g2 G1 G2 N1 N2 H1 H2 B1 B2 E) as (-> & -> & ->).
      repeat split.
Qed.

Lemma allWhitespace_no_word (gap word rest : string) :
  word <> EmptyString -> noWhitespace word ->
  ~ allWhitespace (gap ++ word ++ rest).
Proof.
  intros N H. induction gap as [|c gap IH]; simpl.
  - destruct word as [|x word]; [contradiction|].
    simpl in H |- *. destruct H as [Hx _]. intros [Hx' _]. congruence.
  - intros [_ A]. now apply IH.
Qed.

(** Tokenizing is a function of the string: the tokens are unique. *)
Lemma Tokens_functional (s : string) (ts1 ts2 : list string) :
  Tokens s ts1 -> Tokens s ts2 -> ts1 = ts2.
Proof.
  intros H1. revert ts2.
  induction H1 as [s A1 | g1 w1 r1 ts1 G1 N1 W1 B1 T1 IH]; intros ts2 H2.
  - inversion H2 as [s' A2 | g2 w2 r2 ts2' G2 N2 W2 B2 T2 E]; subst.
    + reflexivity.
    + exfalso. now apply (allWhitespace_no_word g2 w2 r2).
  - inversion H2 as [s' A2 | g2 w2 r2 ts2' G2 N2 W2 B2 T2 E]; subst.
    + exfalso. now apply (allWhitespace_no_word g1 w1 r1).
    + destruct (gap_then_word_unique g2 g1 w2 w1 r2 r1) as (-> & -> & ->); auto.
      f_equal. now apply IH.
Qed.

Lemma splitFrom_blank (s : string) (inRun : bool) :
  allWhitespace s -> filter truthy (splitFrom EmptyString inRun s) = [].
Proof.
  revert inRun. induction s as [|c s IH]; intros inRun H; simpl.
  - reflexivity.
  - destruct H as [Hc Hs]. rewrite Hc. destruct inRun; simpl; now apply IH.
Qed.

Lemma queryTermsOf_blank (q : string) :
  allWhitespace q -> queryTermsOf q = [].
Proof.
  intros H. unfold queryTermsOf, splitWhitespace.
  apply splitFrom_blank. now apply allWhitespace_lower.
Qed.

End Tokenization.

(** ** The scoring loops compute a weighted count *)

Section Scoring.

Variable weight : Z.
Variable terms : list string.

Lemma scoreTerms_count (v : string) (score : Z) :
  scoreTerms weight v terms score
  = score + weight * Z.of_nat (List.length (filter (includes v) terms)).
Proof.
  unfold scoreTerms. revert score.
  induction terms as [|t ts IH]; intros score; simpl.
  - lia.
  - rewrite IH. destruct (includes v t); simpl List.length; lia.
Qed.

Lemma matches_of_one_value (v : string) :
  List.length
    (filter (fun p => includes (toLowerCase (fst p)) (snd p))
            (map (fun t => (v, t)) terms))
  = List.length (filter (includes (toLowerCase v)) terms).
Proof.
  induction terms as [|t ts IH]; simpl; [reflexivity|].
  destruct (includes (toLowerCase v) t); simpl; now rewrite IH.
Qed.

Lemma scoreField_count (values : list string) (score : Z) :
  scoreField weight values terms score
  = score + weight * matchCount values terms.
Proof.
  unfold scoreField, matchCount. revert score.
  induction values as [|v vs IH]; intros score; simpl.
  - lia.
  - rewrite IH, scoreTerms_count, filter_app, length_app, matches_of_one_value.
    lia.
Qed.

End Scoring.

Lemma matchCount_nonneg (values terms : list string) : 0 <= matchCount values terms.
Proof. unfold matchCount. lia. Qed.

Lemma scoreRelevance_sum (s : ParsedSession) (q : string) :
  truthy q = true -> scoreRelevance s q = weightedMatchSum s (queryTermsOf q).
Proof.
  intros Hq. unfold scoreRelevance, weightedMatchSum. rewrite Hq.
  cbv beta iota zeta delta [negb].
  rewrite !scoreField_count. lia.
Qed.

Lemma scoreRelevance_nonneg (s : ParsedSession) (q : string) :
  0 <= scoreRelevance s q.
Proof.
  destruct (truthy q) eqn:Hq.
  - rewrite scoreRelevance_sum by exact Hq. unfold weightedMatchSum.
    pose proof (matchCount_nonneg (userMessages s) (queryTermsOf q)).
    pose proof (matchCount_nonneg (toolsUsed s) (queryTermsOf q)).
    pose proof (matchCount_nonneg (filesFromToolCalls s) (queryTermsOf q)).
    lia.
  - unfold scoreRelevance. rewrite Hq. simpl. lia.
Qed.

Lemma scoreRelevance_no_terms (s : ParsedSession) (q : string) :
  truthy q = true -> queryTermsOf q = [] -> scoreRelevance s q = 0.
Proof.
  intros Hq Hterms. rewrite scoreRelevance_sum by exact Hq. rewrite Hterms.
  unfold weightedMatchSum, matchCount.
  assert (E : forall values : list string, list_prod values (@nil string) = []).
  { induction values as [|v vs IH]; simpl; [reflexivity | exact IH]. }
  rewrite !E. reflexivity.
Qed.

(** ** What the loops of searchSessions push *)

Section Collection.

Variable env : Env.
Variable o : SearchOptions.

Lemma visitFile_Forall (P : SearchResult -> Prop) :
  (forall r, pushedFor env o r -> P r) ->
  forall results filePath,
    Forall P results -> Forall P (visitFile env o results filePath).
Proof.
  intros HP results filePath Hres. unfold visitFile.
  destruct (parseSessionFile env filePath) as [s| |] eqn:Hparse; try exact Hres.
  destruct (List.length (userMessages s) =? 0)%nat eqn:Hlen; [exact Hres|].
  destruct (matchesFilters s o) eqn:Hmatch; simpl; [|exact Hres].
  match goal with
  | |- Forall P (if ?c then _ else _) => destruct c eqn:Hzero
  end; [exact Hres|].
  apply Forall_app. split; [exact Hres|].
  constructor; [|constructor].
  apply HP. unfold pushedFor. simpl.
  split; [exact Hparse|].
  split; [intros E; rewrite E in Hlen; discriminate|].
  split; [exact Hmatch|].
  unfold presentText in Hzero.
  destruct (query o) as [q|]; [|reflexivity].
  destruct (truthy q); [|reflexivity].
  simpl in Hzero. apply Z.eqb_neq in Hzero. now split.
Qed.

Lemma visitFiles_Forall (P : SearchResult -> Prop) :
  (forall r, pushedFor env o r -> P r) ->
  forall files results,
    Forall P results -> Forall P (fold_left (visitFile env o) files results).
Proof.
  intros HP files. induction files as [|f fs IH]; intros results Hres; simpl.
  - exact Hres.
  - apply IH. now apply visitFile_Forall.
Qed.

Lemma visitDirs_Forall (P : SearchResult -> Prop) :
  (forall r, pushedFor env o r -> P r) ->
  forall dirs k results,
    Forall P results -> Forall P (visitDirs env o k results dirs).
Proof.
  intros HP dirs. induction dirs as [|d ds IH]; intros k results Hres; simpl.
  - exact Hres.
  - apply IH. now apply visitFiles_Forall.
Qed.

Lemma collectResults_pushed (baseDir : string) :
  Forall (pushedFor env o) (collectResults env baseDir o).
Proof.
  unfold collectResults. apply visitDirs_Forall; [auto | constructor].
Qed.

End Collection.

(** ** Sorting with a comparator *)

Section SortArray.

Context {A : Type}.
Variable compare : A -> A -> Z.
Variable before : A -> A -> Prop.

Hypothesis before_of_compare : forall a b, compare a b <= 0 -> before a b.
Hypothesis after_of_compare : forall a b, 0 < compare a b -> before b a.
Hypothesis before_trans : forall a b c, before a b -> before b c -> before a c.

Lemma insertSorted_perm (x : A) (l : list A) :
  Permutation (insertSorted compare x l) (x :: l).
Proof.
  induction l as [|y l IH]; simpl.
  - apply Permutation_refl.
  - destruct (0 <? compare x y).
    + eapply perm_trans; [apply perm_skip, IH | apply perm_swap].
    + apply Permutation_refl.
Qed.

Lemma sortArray_perm (l : list A) : Permutation (sortArray compare l) l.
Proof.
  induction l as [|x l IH]; simpl.
  - apply perm_nil.
  - eapply perm_trans; [apply insertSorted_perm | apply perm_skip, IH].
Qed.

Lemma insertSorted_sorted (x : A) (l : list A) :
  StronglySorted before l -> StronglySorted before (insertSorted compare x l).
Proof.
  induction l as [|y l IH]; intros Hs; simpl.
  - constructor; constructor.
  - inversion Hs as [|y' l' Hsl Hy]; subst.
    destruct (0 <? compare x y) eqn:Hc.
    + apply Z.ltb_lt in Hc. constructor; [now apply IH|].
      apply (Permutation_Forall (Permutation_sym (insertSorted_perm x l))).
      constructor; [now apply after_of_compare | exact Hy].
    + apply Z.ltb_ge in Hc. constructor; [exact Hs|].
      assert (Hxy : before x y) by now apply before_of_compare.
      constructor; [exact Hxy|].
      eapply Forall_impl; [|exact Hy]. intros z Hz. now apply before_trans with y.
Qed.

Lemma sortArray_sorted (l : list A) : StronglySorted before (sortArray compare l).
Proof.
  induction l as [|x l IH]; simpl.
  - constructor.
  - now apply insertSorted_sorted.
Qed.

End SortArray.

Section Slices.

Context {A : Type}.

Lemma firstn_Forall (P : A -> Prop) (n : nat) (l : list A) :
  Forall P l -> Forall P (firstn n l).
Proof.
  revert l. induction n as [|n IH]; intros l H; simpl.
  - constructor.
  - destruct H as [|x l Hx Hl]; constructor; auto.
Qed.

Lemma firstn_sorted (R : A -> A -> Prop) (n : nat) (l : list A) :
  StronglySorted R l -> StronglySorted R (firstn n l).
Proof.
  revert l. induction n as [|n IH]; intros l H; simpl.
  - constructor.
  - destruct H as [|x l Hl Hx]; constructor; auto.
    now apply firstn_Forall.
Qed.

Lemma slice0_Forall (P : A -> Prop) (l : list A) (finish : Z) :
  Forall P l -> Forall P (slice0 l finish).
Proof. apply firstn_Forall. Qed.

Lemma slice0_sorted (R : A -> A -> Prop) (l : list A) (finish : Z) :
  StronglySorted R l -> StronglySorted R (slice0 l finish).
Proof. apply firstn_sorted. Qed.

Lemma slice0_length (l : list A) (finish : Z) :
  0 <= finish -> Z.of_nat (List.length (slice0 l finish)) <= finish.
Proof.
  intros H. unfold slice0. rewrite length_firstn.
  destruct (finish <? 0) eqn:E; [apply Z.ltb_lt in E; lia|]. lia.
Qed.

Lemma slice0_all (l : list A) (finish : Z) :
  Z.of_nat (List.length l) <= finish -> slice0 l finish = l.
Proof.
  intros H. unfold slice0.
  destruct (finish <? 0) eqn:E; [apply Z.ltb_lt in E; lia|].
  apply firstn_all2. lia.
Qed.

Lemma slice0_map {B : Type} (f : A -> B) (l : list A) (finish : Z) :
  map f (slice0 l finish) = slice0 (map f l) finish.
Proof. unfold slice0. now rewrite length_map, firstn_map. Qed.

End Slices.

(** ** The comparator of searchSessions orders by (relevance, endedAt) *)

Section Ranking.

Lemma orZero_id (x : Z) : orZero x = x.
Proof. unfold orZero. destruct (x =? 0) eqn:E; [apply Z.eqb_eq in E; lia | reflexivity]. Qed.

Lemma compareResults_before (a b : SearchResult) :
  compareResults a b <= 0 -> ranksBefore a b.
Proof.
  unfold compareResults, ranksBefore. rewrite !orZero_id.
  destruct (relevance a =? relevance b) eqn:E; simpl.
  - apply Z.eqb_eq in E. lia.
  - apply Z.eqb_neq in E. lia.
Qed.

Lemma compareResults_after (a b : SearchResult) :
  0 < compareResults a b -> ranksBefore b a.
Proof.
  unfold compareResults, ranksBefore. rewrite !orZero_id.
  destruct (relevance a =? relevance b) eqn:E; simpl.
  - apply Z.eqb_eq in E. lia.
  - apply Z.eqb_neq in E. lia.
Qed.

Lemma ranksBefore_trans (a b c : SearchResult) :
  ranksBefore a b -> ranksBefore b c -> ranksBefore a c.
Proof. unfold ranksBefore. lia. Qed.

Lemma keyBefore_antisym (k1 k2 : Z * Z) :
  keyBefore k1 k2 -> keyBefore k2 k1 -> k1 = k2.
Proof.
  destruct k1 as [a1 b1], k2 as [a2 b2]. unfold keyBefore. simpl.
  intros H1 H2. f_equal; lia.
Qed.

Lemma sorted_results_sorted_keys (l : list SearchResult) :
  StronglySorted ranksBefore l -> StronglySorted keyBefore (map rankKey l).
Proof.
  induction 1 as [|r l Hl IH Hr]; simpl; constructor; auto.
  apply Forall_map. eapply Forall_impl; [|exact Hr]. auto.
Qed.

(** Two sorted lists of keys with the same elements are the same list. *)
Lemma sorted_keys_unique (ks1 ks2 : list (Z * Z)) :
  StronglySorted keyBefore ks1 -> StronglySorted keyBefore ks2 ->
  Permutation ks1 ks2 -> ks1 = ks2.
Proof.
  revert ks2. induction ks1 as [|a t1 IH]; intros ks2 H1 H2 Hp.
  - now apply Permutation_nil in Hp.
  - destruct ks2 as [|b t2].
    + apply Permutation_sym, Permutation_nil in Hp. discriminate.
    + inversion H1 as [|? ? Ht1 Ha]; subst.
      inversion H2 as [|? ? Ht2 Hb]; subst.
      assert (Hab : a = b).
      { assert (Ia : In a (b :: t2))
          by (eapply Permutation_in; [exact Hp | now left]).
        assert (Ib : In b (a :: t1))
          by (eapply Permutation_in; [apply Permutation_sym; exact Hp | now left]).
        destruct Ia as [E | Ia]; [now symmetry|].
        destruct Ib as [E | Ib]; [exact E|].
        rewrite Forall_forall in Ha, Hb.
        apply keyBefore_antisym; auto. }
      subst b. f_equal. apply IH; auto.
      now apply Permutation_cons_inv in Hp.
Qed.

Lemma sortArray_results_sorted (l : list SearchResult) :
  StronglySorted ranksBefore (sortArray compareResults l).
Proof.
  apply sortArray_sorted.
  - exact compareResults_before.
  - exact compareResults_after.
  - exact ranksBefore_trans.
Qed.

End Ranking.

(** ** Properties of the result list *)

Section ResultList.

Variable env : Env.
Variable baseDir : string.
Variable o : SearchOptions.

Lemma searchSessions_pushed :
  Forall (pushedFor env o) (searchSessions env baseDir o).
Proof.
  unfold searchSessions. apply slice0_Forall.
  apply (Permutation_Forall
           (Permutation_sym (sortArray_perm compareResults _))).
  apply collectResults_pushed.
Qed.

Lemma searchSessions_In_pushed (r : SearchResult) :
  In r (searchSessions env baseDir o) -> pushedFor env o r.
Proof.
  intros H. pose proof searchSessions_pushed as F.
  rewrite Forall_forall in F. now apply F.
Qed.

Lemma searchSessions_In_scored (q : string) (r : SearchResult) :
  query o = Some q ->
  q <> EmptyString ->
  In r (searchSessions env baseDir o) ->
  relevance r = scoreRelevance (session r) q /\ relevance r <> 0.
Proof.
  intros Hq Hne Hin. apply searchSessions_In_pushed in Hin.
  destruct Hin as (_ & _ & _ & Hrel). rewrite Hq in Hrel.
  apply truthy_nonempty in Hne. now rewrite Hne in Hrel.
Qed.

Lemma searchSessions_sorted :
  StronglySorted ranksBefore (searchSessions env baseDir o).
Proof.
  unfold searchSessions. apply slice0_sorted, sortArray_results_sorted.
Qed.

End ResultList.

Example email_query_scores :
  scoreRelevance emailSession "email" = 10
  /\ scoreRelevance emailSession "database" = 0
  /\ scoreRelevance emailSession "EMAIL ship edit" = 23
  /\ scoreRelevance emailSession "email email" = 20.
Proof. repeat split; reflexivity. Qed.

Example mixed_listing :
  searchSessions mixedCorpus "base" noOptions = [emailResult].
Proof. vm_compute. reflexivity. Qed.

Example tie_listing :
  map rankKey (searchSessions tieCorpus "base" noOptions)
  = [(1, utcMidnight 2025 1 15); (1, utcMidnight 2025 1 10)].
Proof. vm_compute. reflexivity. Qed.

(** ** The claims *)

(** C1.  Every result in the list returned by [searchSessions], for every
    environment, base directory and set of options, carries a non-empty
    [userMessages] sequence: the result is built from the session its file
    parsed to, and that session has user messages, so a parsed session with
    no user message is never in the list. *)
Theorem searchSessions_userMessages_nonempty
    (env : Env) (baseDir : string) (o : SearchOptions) (r : SearchResult) :
  In r (searchSessions env baseDir o) ->
  userMessages (session r) <> []
  /\ exists s, parseSessionFile env (transcriptPath r) = Parsed s
               /\ session r = s
               /\ userMessages s <> [].
Proof.
  intros Hin. apply searchSessions_In_pushed in Hin.
  destruct Hin as (Hparse & Hmsgs & _).
  split; [exact Hmsgs|]. exists (session r). auto.
Qed.

Lemma searchSessions_userMessages_nonempty_witness :
  In emailResult (searchSessions mixedCorpus "base" noOptions)
  /\ userMessages (session emailResult) <> []
  /\ exists s, parseSessionFile mixedCorpus (transcriptPath emailResult) = Parsed s
               /\ session emailResult = s
               /\ userMessages s <> [].
Proof.
  assert (Hin : In emailResult (searchSessions mixedCorpus "base" noOptions))
    by (vm_compute; left; reflexivity).
  split; [exact Hin|].
  exact (searchSessions_userMessages_nonempty mixedCorpus "base" noOptions
           emailResult Hin).
Defined.

(** C3.  With a non-empty free-text query, every result of [searchSessions]
    has a relevance strictly greater than 0, and that relevance is the score
    of its session against the query: a session whose score is 0 is not in
    the list. *)
Theorem searchSessions_query_relevance_positive
    (env : Env) (baseDir : string) (o : SearchOptions) (q : string)
    (r : SearchResult) :
  query o = Some q ->
  q <> EmptyString ->
  In r (searchSessions env baseDir o) ->
  relevance r = scoreRelevance (session r) q /\ 0 < relevance r.
Proof.
  intros Hq Hne Hin.
  destruct (searchSessions_In_scored env baseDir o q r Hq Hne Hin) as [Hscore Hnz].
  split; [exact Hscore|].
  pose proof (scoreRelevance_nonneg (session r) q). lia.
Qed.

Lemma searchSessions_query_relevance_positive_witness :
  relevance emailHit = scoreRelevance (session emailHit) "email"
  /\ 0 < relevance emailHit.
Proof.
  apply (searchSessions_query_relevance_positive
           mixedCorpus "base" (withQuery noOptions "email") "email" emailHit).
  - reflexivity.
  - discriminate.
  - vm_compute. left. reflexivity.
Defined.

(** C9.  When the query is a non-empty string made of whitespace only,
    [searchSessions] returns the empty list, whatever the corpus and the
    other options: the query has no terms, every session scores 0, and a
    session that scores 0 against a present query is skipped. *)
Theorem searchSessions_blank_query_empty
    (env : Env) (baseDir : string) (o : SearchOptions) (q : string) :
  query o = Some q ->
  q <> EmptyString ->
  allWhitespace q ->
  queryTermsOf q = []
  /\ (forall s, scoreRelevance s q = 0)
  /\ searchSessions env baseDir o = [].
Proof.
  intros Hq Hne Hblank.
  assert (Hterms : queryTermsOf q = []) by now apply queryTermsOf_blank.
  assert (Hzero : forall s, scoreRelevance s q = 0).
  { intros s. apply scoreRelevance_no_terms; [now apply truthy_nonempty | exact Hterms]. }
  split; [exact Hterms|]. split; [exact Hzero|].
  destruct (searchSessions env baseDir o) as [|r l] eqn:E; [reflexivity|].
  exfalso.
  destruct (searchSessions_In_scored env baseDir o q r Hq Hne) as [Hscore Hnz].
  - rewrite E. now left.
  - rewrite Hzero in Hscore. contradiction.
Qed.

Lemma searchSessions_blank_query_empty_witness :
  queryTermsOf "   " = []
  /\ (forall s, scoreRelevance s "   " = 0)
  /\ searchSessions mixedCorpus "base" (withQuery noOptions "   ") = [].
Proof.
  apply (searchSessions_blank_query_empty
           mixedCorpus "base" (withQuery noOptions "   ") "   ").
  - reflexivity.
  - discriminate.
  - simpl. repeat split; reflexivity.
Defined.

(** C10.  [scoreRelevance] reads the query and the fields [userMessages],
    [toolsUsed] and [filesFromToolCalls] only: two sessions that agree on
    these three fields get the same score for every query, whatever their
    summary, category, timestamps, token counts or other fields. *)
Theorem scoreRelevance_reads_three_fields
    (s1 s2 : ParsedSession) (q : string) :
  userMessages s1 = userMessages s2 ->
  toolsUsed s1 = toolsUsed s2 ->
  filesFromToolCalls s1 = filesFromToolCalls s2 ->
  scoreRelevance s1 q = scoreRelevance s2 q.
Proof.
  intros Hm Ht Hf. unfold scoreRelevance. now rewrite Hm, Ht, Hf.
Qed.

Lemma scoreRelevance_reads_three_fields_witness :
  summary emailSession <> summary (withSummary (withEndedAt emailSession 86400000)
                                               (Some "database migration")
                                               (Some "backend"))
  /\ scoreRelevance emailSession "database"
     = scoreRelevance (withSummary (withEndedAt emailSession 86400000)
                                   (Some "database migration")
                                   (Some "backend"))
                      "database".
Proof.
  split; [discriminate|].
  apply (scoreRelevance_reads_three_fields
           emailSession
           (withSummary (withEndedAt emailSession 86400000)
                        (Some "database migration") (Some "backend"))
           "database"); reflexivity.
Defined.

(** C8.  For every session, [scoreRelevance] on the empty query returns the
    same positive constant, 1, and for every session and every query the
    score is never negative.  In a listing without a query every result has
    that relevance 1, so the list is ordered by [endedAt] alone, most recent
    first. *)
Theorem scoreRelevance_baseline_and_nonneg :
  (forall s : ParsedSession, scoreRelevance s EmptyString = 1)
  /\ (forall (s : ParsedSession) (q : string), 0 <= scoreRelevance s q)
  /\ (forall (env : Env) (baseDir : string) (o : SearchOptions),
        presentText (query o) = false ->
        Forall (fun r => relevance r = 1) (searchSessions env baseDir o)
        /\ StronglySorted
             (fun a b => endedAt (session b) <= endedAt (session a))
             (searchSessions env baseDir o)).
Proof.
  split; [reflexivity|]. split; [exact scoreRelevance_nonneg|].
  intros env baseDir o Hq.
  assert (Hone : Forall (fun r => relevance r = 1) (searchSessions env baseDir o)).
  { eapply Forall_impl; [|apply searchSessions_pushed].
    intros r (_ & _ & _ & Hrel). unfold presentText in Hq.
    destruct (query o) as [q|]; [|exact Hrel]. rewrite Hq in Hrel. exact Hrel. }
  split; [exact Hone|].
  pose proof (searchSessions_sorted env baseDir o) as Hs.
  induction Hs as [|r l Hl IH Hr]; constructor.
  - apply IH. now inversion Hone.
  - inversion Hone as [|? ? H1 Hrest]; subst.
    rewrite Forall_forall in Hr, Hrest |- *. intros b Hb.
    specialize (Hr b Hb). specialize (Hrest b Hb).
    unfold ranksBefore in Hr. lia.
Qed.

Lemma scoreRelevance_baseline_and_nonneg_witness :
  presentText (query noOptions) = false
  /\ Forall (fun r => relevance r = 1) (searchSessions tieCorpus "base" noOptions)
  /\ StronglySorted
       (fun a b => endedAt (session b) <= endedAt (session a))
       (searchSessions tieCorpus "base" noOptions).
Proof.
  split; [reflexivity|].
  apply (proj2 (proj2 scoreRelevance_baseline_and_nonneg) tieCorpus "base" noOptions).
  reflexivity.
Defined.

(** C5.  The list returned by [searchSessions] is in descending order of
    relevance, and results of equal relevance are in descending order of
    [endedAt]: each result ranks before every result after it.  The sequence
    of pairs (relevance, endedAt) in the output depends only on which pairs
    were collected, not on the order in which the files were visited. *)
Theorem searchSessions_order_by_relevance_then_endedAt
    (env : Env) (baseDir : string) (o : SearchOptions) :
  StronglySorted ranksBefore (searchSessions env baseDir o)
  /\ forall (env' : Env) (baseDir' : string),
       Permutation (map rankKey (collectResults env baseDir o))
                   (map rankKey (collectResults env' baseDir' o)) ->
       map rankKey (searchSessions env baseDir o)
       = map rankKey (searchSessions env' baseDir' o).
Proof.
  split; [apply searchSessions_sorted|].
  intros env' baseDir' Hperm. unfold searchSessions.
  rewrite !slice0_map. f_equal.
  apply sorted_keys_unique.
  - apply sorted_results_sorted_keys, sortArray_results_sorted.
  - apply sorted_results_sorted_keys, sortArray_results_sorted.
  - eapply perm_trans;
      [apply Permutation_map, sortArray_perm|].
    eapply perm_trans; [exact Hperm|].
    apply Permutation_sym, Permutation_map, sortArray_perm.
Qed.

Lemma searchSessions_order_by_relevance_then_endedAt_witness :
  Permutation (map rankKey (collectResults tieCorpus "base" noOptions))
              (map rankKey (collectResults tieCorpusReversed "base" noOptions))
  /\ map rankKey (searchSessions tieCorpus "base" noOptions)
     = map rankKey (searchSessions tieCorpusReversed "base" noOptions).
Proof.
  assert (Hperm :
    Permutation (map rankKey (collectResults tieCorpus "base" noOptions))
                (map rankKey (collectResults tieCorpusReversed "base" noOptions)))
    by (vm_compute; apply perm_swap).
  split; [exact Hperm|].
  exact (proj2 (searchSessions_order_by_relevance_then_endedAt
                  tieCorpus "base" noOptions)
               tieCorpusReversed "base" Hperm).
Defined.

(** C4.  For a non-empty query, [scoreRelevance] splits the lowered query at
    whitespace into terms and returns the sum of fixed weights over the
    case-insensitive substring matches: 10 for each pair of a term and a user
    message that contains it, 3 for each pair of a term and a tool name, 3
    for each pair of a term and a file path.  The session with user messages
    "Let's build an email filter" and "Yes, ship it" scores 10 for the query
    "email" and is returned, and scores 0 for the query "database" and is
    not returned. *)
Theorem scoreRelevance_weighted_matches :
  (forall (s : ParsedSession) (q : string),
     q <> EmptyString ->
     (forall ts, Tokens (toLowerCase q) ts <-> ts = queryTermsOf q)
     /\ scoreRelevance s q = weightedMatchSum s (queryTermsOf q))
  /\ (forall value term : string,
        includes (toLowerCase value) term = true
        <-> occursIn term (toLowerCase value))
  /\ (10 <= scoreRelevance emailSession "email"
      /\ searchSessions emailCorpus "base" (withQuery noOptions "email")
         = [emailHit])
  /\ (scoreRelevance emailSession "database" = 0
      /\ searchSessions emailCorpus "base" (withQuery noOptions "database")
         = []).
Proof.
  split.
  { intros s q Hne. split.
    - intros ts. split.
      + intros H. apply (Tokens_functional (toLowerCase q)); [exact H|].
        apply queryTermsOf_Tokens.
      + intros ->. apply queryTermsOf_Tokens.
    - apply scoreRelevance_sum. now apply truthy_nonempty. }
  split.
  { intros value term. apply includes_occursIn. }
  split; split; vm_compute; first [reflexivity | discriminate].
Qed.

Lemma scoreRelevance_weighted_matches_witness :
  (forall ts, Tokens (toLowerCase "Email  filter") ts
              <-> ts = queryTermsOf "Email  filter")
  /\ scoreRelevance emailSession "Email  filter"
     = weightedMatchSum emailSession ["email"; "filter"].
Proof.
  apply (proj1 scoreRelevance_weighted_matches emailSession "Email  filter").
  discriminate.
Defined.

(** C7, as amended.  In the file-based search, when tool names are
    requested, [matchesFilters] admits a session exactly when some requested
    name is a case-insensitive substring of some entry of the session's
    [toolsUsed] and the remaining criteria admit it: any requested name and
    any stored tool will do.  A session with the tool "Edit" is admitted by
    the request "edit". *)
Theorem matchesFilters_tool_any_of :
  (forall (s : ParsedSession) (o : SearchOptions) (requested : list string),
     tools o = Some requested ->
     requested <> [] ->
     (matchesFilters s o = true
      <-> (exists tool t,
             In tool requested /\ In t (toolsUsed s)
             /\ occursInIgnoringCase tool t)
          /\ matchesFilters s (withoutTools o) = true))
  /\ matchesFilters editSession (withTools_requested noOptions ["edit"]) = true.
Proof.
  split; [|reflexivity].
  intros s o requested Htools Hne.
  assert (Htool : passesToolFilter s o = true
                  <-> exists tool t,
                        In tool requested /\ In t (toolsUsed s)
                        /\ occursInIgnoringCase tool t).
  { unfold passesToolFilter. rewrite Htools.
    destruct requested as [|x xs]; [contradiction|].
    change (0 <? List.length (x :: xs))%nat with true.
    cbv iota. unfold hasMatchingTool. rewrite existsb_exists. split.
    - intros [tool [Hin Hex]]. apply existsb_exists in Hex.
      destruct Hex as [t [Ht Hinc]]. exists tool, t.
      repeat split; auto. now apply includes_occursIn.
    - intros [tool [t (Hin & Ht & Hocc)]]. exists tool. split; [exact Hin|].
      apply existsb_exists. exists t. split; [exact Ht|].
      now apply includes_occursIn. }
  assert (Hrest : matchesFilters s (withoutTools o) = passesFileFilter s o).
  { unfold matchesFilters, passesToolFilter, passesFileFilter. simpl.
    destruct (filePattern o) as [p|]; [|reflexivity].
    destruct (truthy p); [|reflexivity].
    destruct (hasMatchingFile s p); reflexivity. }
  rewrite Hrest, <- Htool. unfold matchesFilters.
  destruct (passesToolFilter s o), (passesFileFilter s o); simpl;
    split; try tauto; try discriminate; intros [? ?]; discriminate.
Qed.

Lemma matchesFilters_tool_any_of_witness :
  matchesFilters editSession (withTools_requested noOptions ["Write"; "edit"]) = true
  <-> (exists tool t,
         In tool ["Write"; "edit"] /\ In t (toolsUsed editSession)
         /\ occursInIgnoringCase tool t)
      /\ matchesFilters editSession
           (withoutTools (withTools_requested noOptions ["Write"; "edit"])) = true.
Proof.
  apply (proj1 matchesFilters_tool_any_of editSession
           (withTools_requested noOptions ["Write"; "edit"]) ["Write"; "edit"]).
  - reflexivity.
  - discriminate.
Defined.

(** ** The date window of findSessionFiles *)

(** Splits a goal into its conjuncts, without unfolding definitions. *)
Ltac conjuncts :=
  repeat match goal with
         | |- _ /\ _ => split
         end.

Section DateWindow.

Lemma earlierThan_false (t : Z) (d : JsDate) :
  earlierThan t d = false <-> (forall x, d = DateAt x -> x <= t).
Proof.
  destruct d as [|y]; simpl.
  - split; [intros _ x Hx; discriminate | reflexivity].
  - rewrite Z.ltb_ge. split.
    + intros H x Hx. injection Hx as <-. exact H.
    + intros H. now apply H.
Qed.

Lemma laterThan_false (t : Z) (d : JsDate) :
  laterThan t d = false <-> (forall x, d = DateAt x -> t <= x).
Proof.
  destruct d as [|y]; simpl.
  - split; [intros _ x Hx; discriminate | reflexivity].
  - rewrite Z.ltb_ge. split.
    + intros H x Hx. injection Hx as <-. exact H.
    + intros H. now apply H.
Qed.

Lemma withinWindow_inWindow (sinceD untilD : option JsDate) (t : Z) :
  withinWindow sinceD untilD t = true <-> inWindow sinceD untilD t.
Proof.
  unfold withinWindow, inWindow.
  assert (Hs : match sinceD with Some d => earlierThan t d | None => false end = false
               <-> (forall d, sinceD = Some (DateAt d) -> d <= t)).
  { destruct sinceD as [d|].
    - rewrite earlierThan_false. split.
      + intros H x Hx. injection Hx as ->. now apply H.
      + intros H x ->. now apply H.
    - split; [intros _ x Hx; discriminate | reflexivity]. }
  assert (Hu : match untilD with Some d => laterThan t d | None => false end = false
               <-> (forall d, untilD = Some (DateAt d) -> t <= d)).
  { destruct untilD as [d|].
    - rewrite laterThan_false. split.
      + intros H x Hx. injection Hx as ->. now apply H.
      + intros H x ->. now apply H.
    - split; [intros _ x Hx; discriminate | reflexivity]. }
  rewrite <- Hs, <- Hu.
  destruct (match sinceD with Some d => earlierThan t d | None => false end),
           (match untilD with Some d => laterThan t d | None => false end);
    split; try discriminate; try tauto; intros [? ?]; discriminate.
Qed.

Variable env : Env.
Variable dir : string.
Variables sinceD untilD : option JsDate.

Lemma scanFiles_In (names : list string) (path : string) :
  (forall file, In file names -> endsWith file ".jsonl" = true ->
                statSync env (join env dir file) <> None) ->
  (In path (scanFiles env dir sinceD untilD names)
   <-> exists file st,
         In file names
         /\ endsWith file ".jsonl" = true
         /\ path = join env dir file
         /\ statSync env path = Some st
         /\ inWindow sinceD untilD (mtime st)).
Proof.
  induction names as [|file rest IH]; intros Hstat.
  - simpl. split; [contradiction | intros (f & st & [] & _)].
  - assert (IH' := IH (fun f Hf => Hstat f (or_intror Hf))). clear IH.
    simpl scanFiles. destruct (endsWith file ".jsonl") eqn:Hext; simpl negb; cbv iota.
    + destruct (statSync env (join env dir file)) as [stat|] eqn:Hst.
      * destruct (withinWindow sinceD untilD (mtime stat)) eqn:Hw.
        -- simpl In. rewrite IH'. split.
           ++ intros [<- | (f & st & Hf & He & Hp & Hs & Hi)].
              ** exists file, stat. conjuncts; auto with datatypes.
                 now apply withinWindow_inWindow.
              ** exists f, st. conjuncts; auto with datatypes.
           ++ intros (f & st & [<- | Hf] & He & Hp & Hs & Hi).
              ** left. now symmetry.
              ** right. exists f, st. conjuncts; auto with datatypes.
        -- rewrite IH'. split.
           ++ intros (f & st & Hf & He & Hp & Hs & Hi).
              exists f, st. conjuncts; auto with datatypes.
           ++ intros (f & st & [<- | Hf] & He & Hp & Hs & Hi).
              ** exfalso. subst path. rewrite Hst in Hs. injection Hs as <-.
                 apply withinWindow_inWindow in Hi. congruence.
              ** exists f, st. conjuncts; auto with datatypes.
      * exfalso. apply (Hstat file); auto. now left.
    + rewrite IH'. split.
      * intros (f & st & Hf & He & Hp & Hs & Hi).
        exists f, st. conjuncts; auto with datatypes.
      * intros (f & st & [<- | Hf] & He & Hp & Hs & Hi); [congruence|].
        exists f, st. conjuncts; auto with datatypes.
Qed.

End DateWindow.

(** C6, as amended.  The date window of the file-based search is applied to
    the modification time of the session file, not to the [endedAt] of the
    record: where every [statSync] succeeds, a file of a directory is
    admitted exactly when its name ends in ".jsonl" and its modification time
    lies in the window from the cutoff to [until], absent bounds admitting
    all.  The cutoff is the explicit [since] when one is given, also next to
    [days]; otherwise a non-zero [days] of N gives the time of the call minus
    N days.  With [days] 7 read on 2025-01-20, a file modified on 2025-01-10
    is left out and a file modified on 2025-01-18 is kept. *)
Theorem findSessionFiles_window_on_mtime :
  (forall (env : Env) (now : Z) (dir : string) (o : SearchOptions)
          (names : list string),
     readdirSync env dir = Some names ->
     (forall file, In file names -> endsWith file ".jsonl" = true ->
                   statSync env (join env dir file) <> None) ->
     forall path,
       In path (findSessionFiles env now dir o)
       <-> exists file st,
             In file names
             /\ endsWith file ".jsonl" = true
             /\ path = join env dir file
             /\ statSync env path = Some st
             /\ inWindow (sinceCutoff now o) (until o) (mtime st))
  /\ (forall (now : Z) (o : SearchOptions) (d : JsDate),
        since o = Some d -> sinceCutoff now o = Some d)
  /\ (forall (now : Z) (o : SearchOptions) (n : Z),
        since o = None -> days o = Some n -> n <> 0 ->
        Z.abs (now - n * 86400000) <= maxTimeValue ->
        sinceCutoff now o = Some (DateAt (now - n * 86400000)))
  /\ (findSessionFiles windowCorpus (utcMidnight 2025 1 20) "base/project"
        (withDays noOptions 7)
      = ["base/project/jan18.jsonl"]
      /\ map transcriptPath
           (searchSessions windowCorpus "base" (withDays noOptions 7))
         = ["base/project/jan18.jsonl"]).
Proof.
  split.
  { intros env now dir o names Hdir Hstat path.
    unfold findSessionFiles. rewrite Hdir. now apply scanFiles_In. }
  split.
  { intros now o d Hs. unfold sinceCutoff. now rewrite Hs. }
  split.
  { intros now o n Hs Hd Hn Hrange. unfold sinceCutoff. rewrite Hs, Hd.
    apply Z.eqb_neq in Hn. rewrite Hn. simpl negb. cbv iota.
    replace (now - n * 24 * 60 * 60 * 1000) with (now - n * 86400000) by lia.
    unfold newDate. apply Z.leb_le in Hrange. now rewrite Hrange. }
  split; vm_compute; reflexivity.
Qed.

Lemma findSessionFiles_window_on_mtime_witness :
  In "base/project/jan18.jsonl"
     (findSessionFiles windowCorpus (utcMidnight 2025 1 20) "base/project"
        (withDays noOptions 7))
  <-> exists file st,
        In file ["jan10.jsonl"; "jan18.jsonl"]
        /\ endsWith file ".jsonl" = true
        /\ "base/project/jan18.jsonl" = join windowCorpus "base/project" file
        /\ statSync windowCorpus "base/project/jan18.jsonl" = Some st
        /\ inWindow (sinceCutoff (utcMidnight 2025 1 20) (withDays noOptions 7))
                    (until (withDays noOptions 7)) (mtime st).
Proof.
  apply (proj1 findSessionFiles_window_on_mtime
           windowCorpus (utcMidnight 2025 1 20) "base/project"
           (withDays noOptions 7) ["jan10.jsonl"; "jan18.jsonl"]).
  - reflexivity.
  - intros file [<- | [<- | []]] _; vm_compute; discriminate.
Defined.

(** C6, the claim as stated fails.  With [days] 7 read on 2025-01-20, a
    record that ended on 2025-01-10, outside the window, is returned when its
    file was modified on 2025-01-18; a record that ended on 2025-01-18,
    inside the window, is left out when the modification time of its file is
    2025-01-10; and [days] 0 sets no cutoff at all. *)
Lemma date_window_disregards_endedAt :
  (exists r,
     In r (searchSessions staleCorpus "base" (withDays noOptions 7))
     /\ endedAt (session r) = utcMidnight 2025 1 10
     /\ ~ inWindow (sinceCutoff (utcMidnight 2025 1 20) (withDays noOptions 7))
                   (until (withDays noOptions 7))
                   (endedAt (session r)))
  /\ (parseSessionFile restoredCorpus "base/project/restored.jsonl"
      = Parsed (sessionEnding (utcMidnight 2025 1 18))
      /\ inWindow (sinceCutoff (utcMidnight 2025 1 20) (withDays noOptions 7))
                  (until (withDays noOptions 7))
                  (endedAt (sessionEnding (utcMidnight 2025 1 18)))
      /\ searchSessions restoredCorpus "base" (withDays noOptions 7) = [])
  /\ sinceCutoff (utcMidnight 2025 1 20) (withDays noOptions 0) = None.
Proof.
  split.
  { exists {| session := sessionEnding (utcMidnight 2025 1 10);
              relevance := 1;
              transcriptPath := "base/project/stale.jsonl" |}.
    split; [vm_compute; left; reflexivity|].
    split; [reflexivity|].
    intros [Hsince _].
    specialize (Hsince (utcMidnight 2025 1 13) eq_refl).
    vm_compute in Hsince. apply Hsince. reflexivity. }
  split; [|reflexivity].
  split; [reflexivity|].
  split; [|vm_compute; reflexivity].
  split; intros d Hd; [|discriminate].
  vm_compute in Hd. injection Hd as <-. vm_compute. discriminate.
Qed.

(** ** The limit *)

Lemma searchSessions_length_le (env : Env) (baseDir : string) (o : SearchOptions) :
  0 <= effectiveLimit o ->
  Z.of_nat (List.length (searchSessions env baseDir o)) <= effectiveLimit o.
Proof. intros H. unfold searchSessions. now apply slice0_length. Qed.

Lemma searchSessions_uncut (env : Env) (baseDir : string) (o : SearchOptions) :
  Z.of_nat (List.length (collectResults env baseDir o)) <= effectiveLimit o ->
  searchSessions env baseDir o
  = sortArray compareResults (collectResults env baseDir o).
Proof.
  intros H. unfold searchSessions. apply slice0_all.
  now rewrite (Permutation_length (sortArray_perm compareResults _)).
Qed.

Lemma mathMin_100 (a : JsNumber) (n : Z) : mathMin a (Num 100) = Num n -> n <= 100.
Proof.
  destruct a as [|z| |]; simpl; try discriminate;
    intros H; injection H as <-; lia.
Qed.

Lemma routeLimit_given (text : string) :
  text <> EmptyString ->
  routeLimit (Some text) = mathMin (parseInt10 text) (Num 100).
Proof.
  intros H. apply truthy_nonempty in H. unfold routeLimit. now rewrite H.
Qed.

(** C2, as amended.  [searchSessions] cuts the sorted results to the limit
    and has no ceiling: without a limit, or with the limit 0, at most 20
    results are returned; with a positive limit n at most n are returned, and
    all of them when no more than n were collected.  The HTTP route alone
    caps the limit: its limit is the smaller of the number parsed from the
    parameter and 100, so it never exceeds 100; a parsed number p gives the
    smaller of p and 100, an infinite one 100 or itself when negative, a
    parameter that is no number [NaN]; without a parameter, or with an empty
    one, it is 20. *)
Theorem searchSessions_limit_without_ceiling :
  (forall (env : Env) (baseDir : string) (o : SearchOptions),
     limit o = None \/ limit o = Some 0 ->
     effectiveLimit o = 20
     /\ Z.of_nat (List.length (searchSessions env baseDir o)) <= 20)
  /\ (forall (env : Env) (baseDir : string) (o : SearchOptions) (n : Z),
        limit o = Some n ->
        0 < n ->
        Z.of_nat (List.length (searchSessions env baseDir o)) <= n
        /\ (Z.of_nat (List.length (collectResults env baseDir o)) <= n ->
            searchSessions env baseDir o
            = sortArray compareResults (collectResults env baseDir o)))
  /\ (forall (limitStr : option string) (n : Z),
        routeLimit limitStr = Num n -> n <= 100)
  /\ (forall text : string,
        text <> EmptyString ->
        routeLimit (Some text) = mathMin (parseInt10 text) (Num 100)
        /\ (forall p, parseInt10 text = Num p ->
                      routeLimit (Some text) = Num (Z.min p 100))
        /\ (parseInt10 text = PosInfinity -> routeLimit (Some text) = Num 100)
        /\ (parseInt10 text = NegInfinity ->
            routeLimit (Some text) = NegInfinity)
        /\ (parseInt10 text = NaN -> routeLimit (Some text) = NaN))
  /\ (routeLimit None = Num 20
      /\ routeLimit (Some EmptyString) = Num 20
      /\ routeLimit (Some "500") = Num 100
      /\ routeLimit (Some "100") = Num 100
      /\ routeLimit (Some "99") = Num 99
      /\ routeLimit (Some " 42px") = Num 42
      /\ routeLimit (Some "0") = Num 0
      /\ routeLimit (Some "-5") = Num (-5)
      /\ routeLimit (Some "many") = NaN).
Proof.
  split.
  { intros env baseDir o Hl.
    assert (E : effectiveLimit o = 20)
      by (unfold effectiveLimit; destruct Hl as [-> | ->]; reflexivity).
    split; [exact E|]. rewrite <- E. apply searchSessions_length_le. lia. }
  split.
  { intros env baseDir o n Hl Hn.
    assert (E : effectiveLimit o = n).
    { unfold effectiveLimit. rewrite Hl.
      destruct (n =? 0) eqn:E0; [apply Z.eqb_eq in E0; lia | reflexivity]. }
    split.
    - rewrite <- E. apply searchSessions_length_le. lia.
    - intros Hfew. apply searchSessions_uncut. now rewrite E. }
  split.
  { intros limitStr n. unfold routeLimit. apply mathMin_100. }
  split.
  { intros text Hne. rewrite (routeLimit_given text Hne).
    split; [reflexivity|].
    split; [intros p ->; reflexivity|].
    split; [intros ->; reflexivity|].
    split; intros ->; reflexivity. }
  repeat split; reflexivity.
Qed.

Lemma searchSessions_limit_without_ceiling_witness :
  limit (withLimit noOptions 500) = Some 500
  /\ Z.of_nat (List.length
                 (searchSessions largeCorpus "base" (withLimit noOptions 500)))
     <= 500
  /\ (Z.of_nat (List.length
                  (collectResults largeCorpus "base" (withLimit noOptions 500)))
      <= 500 ->
      searchSessions largeCorpus "base" (withLimit noOptions 500)
      = sortArray compareResults
          (collectResults largeCorpus "base" (withLimit noOptions 500))).
Proof.
  split; [reflexivity|].
  apply (proj1 (proj2 searchSessions_limit_without_ceiling)
           largeCorpus "base" (withLimit noOptions 500) 500).
  - reflexivity.
  - lia.
Defined.

(** C2, the claim as stated fails.  On a corpus of 101 sessions, a search
    with the limit 500 returns all 101 records, more than 100. *)
Lemma searchSessions_limit_500_returns_101 :
  limit (withLimit noOptions 500) = Some 500
  /\ List.length (searchSessions largeCorpus "base" (withLimit noOptions 500))
     = 101%nat
  /\ ~ (List.length (searchSessions largeCorpus "base" (withLimit noOptions 500))
        <= 100)%nat.
Proof.
  assert (E : List.length
                (searchSessions largeCorpus "base" (withLimit noOptions 500))
              = 101%nat) by (vm_compute; reflexivity).
  split; [reflexivity|]. split; [exact E|]. rewrite E. lia.
Qed.

(** ** Further properties of matchesFilters *)

Lemma includes_empty (s : string) : includes s EmptyString = true.
Proof. destruct s; reflexivity. Qed.

Lemma hasMatchingFile_occurs (s : ParsedSession) (p : string) :
  hasMatchingFile s p = true
  <-> exists f, In f (filesFromToolCalls s) /\ occursInIgnoringCase p f.
Proof.
  unfold hasMatchingFile. rewrite existsb_exists. split.
  - intros [f [Hin Hinc]]. exists f. split; [exact Hin|].
    now apply includes_occursIn.
  - intros [f [Hin Hocc]]. exists f. split; [exact Hin|].
    now apply includes_occursIn.
Qed.

Lemma matchesFilters_and (s : ParsedSession) (o : SearchOptions) :
  matchesFilters s o = (passesToolFilter s o && passesFileFilter s o)%bool.
Proof.
  unfold matchesFilters.
  destruct (passesToolFilter s o), (passesFileFilter s o); reflexivity.
Qed.

(** X1.  When a non-empty file pattern is given, [matchesFilters] admits a
    session exactly when the pattern is a case-insensitive substring of some
    entry of the session's [filesFromToolCalls] and the remaining criteria
    admit it. *)
Theorem matchesFilters_file_pattern
    (s : ParsedSession) (o : SearchOptions) (p : string) :
  filePattern o = Some p ->
  p <> EmptyString ->
  (matchesFilters s o = true
   <-> (exists f, In f (filesFromToolCalls s) /\ occursInIgnoringCase p f)
       /\ matchesFilters s (withoutFilePattern o) = true).
Proof.
  intros Hp Hne. apply truthy_nonempty in Hne.
  rewrite !matchesFilters_and, !andb_true_iff.
  assert (Hfile : passesFileFilter s o = hasMatchingFile s p).
  { unfold passesFileFilter. now rewrite Hp, Hne. }
  assert (Hrest : passesFileFilter s (withoutFilePattern o) = true) by reflexivity.
  assert (Htool : passesToolFilter s (withoutFilePattern o) = passesToolFilter s o)
    by reflexivity.
  rewrite Hfile, Hrest, Htool, hasMatchingFile_occurs. tauto.
Qed.

Lemma matchesFilters_file_pattern_witness :
  matchesFilters emailSessionWithFile (withFilePattern noOptions "API/") = true
  <-> (exists f, In f (filesFromToolCalls emailSessionWithFile)
                 /\ occursInIgnoringCase "API/" f)
      /\ matchesFilters emailSessionWithFile
           (withoutFilePattern (withFilePattern noOptions "API/")) = true.
Proof.
  apply (matchesFilters_file_pattern emailSessionWithFile
           (withFilePattern noOptions "API/") "API/").
  - reflexivity.
  - discriminate.
Defined.

(** X2.  Edges of the tool filter.  A requested list that is absent or empty
    filters nothing.  A non-empty requested list rejects every session that
    used no tool.  A requested list that holds the empty name, as a trailing
    comma on the command line gives, passes every session that used at least
    one tool. *)
Theorem passesToolFilter_edges (s : ParsedSession) (o : SearchOptions) :
  (tools o = None \/ tools o = Some [] -> passesToolFilter s o = true)
  /\ (forall requested,
        tools o = Some requested -> requested <> [] -> toolsUsed s = [] ->
        matchesFilters s o = false)
  /\ (forall requested,
        tools o = Some requested -> In EmptyString requested ->
        toolsUsed s <> [] ->
        passesToolFilter s o = true).
Proof.
  split; [|split].
  - intros [H | H]; unfold passesToolFilter; rewrite H; reflexivity.
  - intros requested Ht Hne Hnone. rewrite matchesFilters_and.
    unfold passesToolFilter. rewrite Ht.
    destruct requested as [|x xs]; [contradiction|].
    change (0 <? List.length (x :: xs))%nat with true. cbv iota.
    unfold hasMatchingTool. rewrite Hnone.
    generalize (x :: xs). intros l.
    induction l as [|y ys IH]; simpl; [reflexivity | exact IH].
  - intros requested Ht Hin Hsome. unfold passesToolFilter. rewrite Ht.
    destruct requested as [|x xs]; [contradiction|].
    change (0 <? List.length (x :: xs))%nat with true. cbv iota.
    unfold hasMatchingTool. apply existsb_exists.
    exists EmptyString. split; [exact Hin|].
    destruct (toolsUsed s) as [|t ts]; [contradiction|].
    simpl. now rewrite includes_empty.
Qed.

Lemma passesToolFilter_edges_witness :
  passesToolFilter editSession (withTools_requested noOptions ["Grep"; ""]) = true
  /\ matchesFilters (withTools editSession [])
       (withTools_requested noOptions ["Edit"]) = false.
Proof.
  split.
  - apply (proj2 (proj2 (passesToolFilter_edges editSession
                           (withTools_requested noOptions ["Grep"; ""])))
             ["Grep"; ""]).
    + reflexivity.
    + right. left. reflexivity.
    + discriminate.
  - apply (proj1 (proj2 (passesToolFilter_edges (withTools editSession [])
                           (withTools_requested noOptions ["Edit"])))
             ["Edit"]).
    + reflexivity.
    + discriminate.
    + reflexivity.
Defined.

(** ** Discovery: directories and files *)

Lemma scanFiles_sound (env : Env) (dir : string) (sinceD untilD : option JsDate)
    (names : list string) (path : string) :
  In path (scanFiles env dir sinceD untilD names) ->
  exists file st,
    In file names
    /\ endsWith file ".jsonl" = true
    /\ path = join env dir file
    /\ statSync env path = Some st
    /\ inWindow sinceD untilD (mtime st).
Proof.
  induction names as [|file rest IH]; simpl; [contradiction|].
  destruct (endsWith file ".jsonl") eqn:Hext; simpl negb; cbv iota.
  - destruct (statSync env (join env dir file)) as [stat|] eqn:Hst;
      [|contradiction].
    destruct (withinWindow sinceD untilD (mtime stat)) eqn:Hw.
    + intros [<- | Hin].
      * exists file, stat. conjuncts; auto with datatypes.
        now apply withinWindow_inWindow.
      * destruct (IH Hin) as (f & st & Hf & He & Hp & Hs & Hi).
        exists f, st. conjuncts; auto with datatypes.
    + intros Hin. destruct (IH Hin) as (f & st & Hf & He & Hp & Hs & Hi).
      exists f, st. conjuncts; auto with datatypes.
  - intros Hin. destruct (IH Hin) as (f & st & Hf & He & Hp & Hs & Hi).
    exists f, st. conjuncts; auto with datatypes.
Qed.

Lemma scanFiles_stops (env : Env) (dir : string) (sinceD untilD : option JsDate)
    (before after : list string) (file : string) :
  endsWith file ".jsonl" = true ->
  statSync env (join env dir file) = None ->
  scanFiles env dir sinceD untilD (before ++ file :: after)
  = scanFiles env dir sinceD untilD before.
Proof.
  intros Hext Hst. induction before as [|b bs IH]; simpl.
  - now rewrite Hext, Hst.
  - destruct (endsWith b ".jsonl"); simpl negb; cbv iota; [|exact IH].
    destruct (statSync env (join env dir b)) as [stat|]; [|reflexivity].
    destruct (withinWindow sinceD untilD (mtime stat)); now rewrite IH.
Qed.

(** X3.  A base directory that cannot be read, or that holds no entry that
    is a directory, gives the empty result list, not a failure. *)
Theorem searchSessions_without_directories
    (env : Env) (baseDir : string) (o : SearchOptions) :
  (readdirSync env baseDir = None
   \/ exists names,
        readdirSync env baseDir = Some names
        /\ forall name st,
             In name names ->
             statSync env (join env baseDir name) = Some st ->
             isDirectory st = false) ->
  findSessionDirs env baseDir = [] /\ searchSessions env baseDir o = [].
Proof.
  intros H.
  assert (Hdirs : findSessionDirs env baseDir = []).
  { unfold findSessionDirs. destruct H as [-> | (names & -> & Hnone)].
    - reflexivity.
    - induction names as [|n ns IH]; simpl; [reflexivity|].
      destruct (statSync env (join env baseDir n)) as [st|] eqn:Hst.
      + rewrite (Hnone n st (or_introl eq_refl) Hst).
        apply IH. intros name st' Hin. apply Hnone. now right.
      + apply IH. intros name st' Hin. apply Hnone. now right. }
  split; [exact Hdirs|].
  unfold searchSessions, collectResults. rewrite Hdirs. simpl.
  unfold slice0. apply firstn_nil.
Qed.

Lemma searchSessions_without_directories_witness :
  findSessionDirs emailCorpus "elsewhere" = []
  /\ searchSessions emailCorpus "elsewhere" noOptions = [].
Proof.
  apply (searchSessions_without_directories emailCorpus "elsewhere" noOptions).
  left. reflexivity.
Defined.

(** X4.  [findSessionDirs] returns exactly the joined paths of the entries of
    the base directory that [statSync] reports as directories; an entry whose
    [statSync] throws is passed over and the entries after it are still
    looked at. *)
Theorem findSessionDirs_exactly_directories
    (env : Env) (baseDir : string) (names : list string) (path : string) :
  readdirSync env baseDir = Some names ->
  (In path (findSessionDirs env baseDir)
   <-> exists name st,
         In name names
         /\ path = join env baseDir name
         /\ statSync env path = Some st
         /\ isDirectory st = true).
Proof.
  intros Hdir. unfold findSessionDirs. rewrite Hdir, filter_In, in_map_iff.
  split.
  - intros [[name [Hp Hin]] Hst].
    destruct (statSync env path) as [st|] eqn:E; [|discriminate].
    exists name, st. conjuncts; auto.
  - intros (name & st & Hin & Hp & Hst & Hd). split.
    + exists name. split; [now symmetry | exact Hin].
    + now rewrite Hst.
Qed.

Lemma findSessionDirs_exactly_directories_witness :
  In "base/project" (findSessionDirs emailCorpus "base")
  <-> exists name st,
        In name ["project"]
        /\ "base/project" = join emailCorpus "base" name
        /\ statSync emailCorpus "base/project" = Some st
        /\ isDirectory st = true.
Proof.
  apply (findSessionDirs_exactly_directories emailCorpus "base" ["project"]).
  reflexivity.
Defined.

(** X5.  In [findSessionFiles] a [statSync] that throws on a ".jsonl" entry
    ends the scan of that directory: the entries after it are not looked at,
    and what the entries before it gave is kept. *)
Theorem findSessionFiles_stat_failure_ends_scan
    (env : Env) (now : Z) (dir : string) (o : SearchOptions)
    (before after : list string) (file : string) :
  readdirSync env dir = Some (before ++ file :: after)%list ->
  endsWith file ".jsonl" = true ->
  statSync env (join env dir file) = None ->
  findSessionFiles env now dir o
  = scanFiles env dir (sinceCutoff now o) (until o) before
  /\ forall path,
       In path (findSessionFiles env now dir o) ->
       exists entry, In entry before /\ path = join env dir entry.
Proof.
  intros Hdir Hext Hst.
  assert (E : findSessionFiles env now dir o
              = scanFiles env dir (sinceCutoff now o) (until o) before).
  { unfold findSessionFiles. rewrite Hdir. now apply scanFiles_stops. }
  split; [exact E|].
  intros path Hin. rewrite E in Hin. apply scanFiles_sound in Hin.
  destruct Hin as (f & st & Hf & _ & Hp & _). now exists f.
Qed.

Lemma findSessionFiles_stat_failure_ends_scan_witness :
  findSessionFiles ghostCorpus (utcMidnight 2025 1 20) "base/project" noOptions
  = scanFiles ghostCorpus "base/project"
      (sinceCutoff (utcMidnight 2025 1 20) noOptions) (until noOptions)
      ["jan10.jsonl"]
  /\ forall path,
       In path (findSessionFiles ghostCorpus (utcMidnight 2025 1 20)
                  "base/project" noOptions) ->
       exists entry,
         In entry ["jan10.jsonl"] /\ path = join ghostCorpus "base/project" entry.
Proof.
  apply (findSessionFiles_stat_failure_ends_scan ghostCorpus
           (utcMidnight 2025 1 20) "base/project" noOptions
           ["jan10.jsonl"] ["jan18.jsonl"] "ghost.jsonl"); reflexivity.
Defined.

(** X6.  Whatever the file system answers, every path that
    [findSessionFiles] returns is the joined path of an entry of the
    directory whose name ends in ".jsonl", whose [statSync] succeeded and
    whose modification time lies in the date window; a directory that cannot
    be read gives no path. *)
Theorem findSessionFiles_only_jsonl_in_window
    (env : Env) (now : Z) (dir : string) (o : SearchOptions) :
  (readdirSync env dir = None -> findSessionFiles env now dir o = [])
  /\ forall path,
       In path (findSessionFiles env now dir o) ->
       exists names file st,
         readdirSync env dir = Some names
         /\ In file names
         /\ endsWith file ".jsonl" = true
         /\ path = join env dir file
         /\ statSync env path = Some st
         /\ inWindow (sinceCutoff now o) (until o) (mtime st).
Proof.
  unfold findSessionFiles. split.
  - intros ->. reflexivity.
  - intros path. destruct (readdirSync env dir) as [names|]; [|contradiction].
    intros Hin. apply scanFiles_sound in Hin.
    destruct Hin as (file & st & H). exists names, file, st.
    split; [reflexivity | exact H].
Qed.

Lemma findSessionFiles_only_jsonl_in_window_witness :
  exists names file st,
    readdirSync windowCorpus "base/project" = Some names
    /\ In file names
    /\ endsWith file ".jsonl" = true
    /\ "base/project/jan18.jsonl" = join windowCorpus "base/project" file
    /\ statSync windowCorpus "base/project/jan18.jsonl" = Some st
    /\ inWindow (sinceCutoff (utcMidnight 2025 1 20) (withDays noOptions 7))
                (until (withDays noOptions 7)) (mtime st).
Proof.
  apply (proj2 (findSessionFiles_only_jsonl_in_window windowCorpus
                  (utcMidnight 2025 1 20) "base/project" (withDays noOptions 7))).
  vm_compute. left. reflexivity.
Defined.

(** ** Where the results come from *)

Section Provenance.

Variable env : Env.
Variable o : SearchOptions.

Lemma visitFile_adds (results : list SearchResult) (filePath : string) :
  visitFile env o results filePath = results
  \/ exists r,
       visitFile env o results filePath = (results ++ [r])%list
       /\ transcriptPath r = filePath.
Proof.
  unfold visitFile.
  destruct (parseSessionFile env filePath) as [s| |]; auto.
  destruct (List.length (userMessages s) =? 0)%nat; auto.
  destruct (negb (matchesFilters s o)); auto.
  match goal with
  | |- (if ?c then _ else _) = _ \/ _ => destruct c
  end; auto.
  right. eexists. split; reflexivity.
Qed.

Lemma visitFiles_from (P : SearchResult -> Prop) (files : list string) :
  (forall r, In (transcriptPath r) files -> P r) ->
  forall results,
    Forall P results -> Forall P (fold_left (visitFile env o) files results).
Proof.
  induction files as [|f fs IH]; intros HP results Hres; simpl; [exact Hres|].
  apply IH; [intros r Hr; apply HP; now right|].
  destruct (visitFile_adds results f) as [-> | (r & -> & Hr)]; [exact Hres|].
  apply Forall_app. split; [exact Hres|].
  constructor; [|constructor]. apply HP. now left.
Qed.

Lemma visitDirs_from (P : SearchResult -> Prop) (dirs : list string) :
  forall k,
    (forall r i dir,
       nth_error dirs i = Some dir ->
       In (transcriptPath r) (findSessionFiles env (clock env (k + i)) dir o) ->
       P r) ->
    forall results,
      Forall P results -> Forall P (visitDirs env o k results dirs).
Proof.
  induction dirs as [|d ds IH]; intros k HP results Hres; simpl; [exact Hres|].
  apply IH.
  - intros r i dir Hnth Hin. apply (HP r (S i) dir); [exact Hnth|].
    now rewrite <- Nat.add_succ_comm.
  - apply visitFiles_from; [|exact Hres].
    intros r Hr. apply (HP r 0%nat d); [reflexivity|].
    now rewrite Nat.add_0_r.
Qed.

End Provenance.

(** X7.  The [transcriptPath] of every result of [searchSessions] names a
    file the search found.  Its directory is an entry that [readdirSync]
    lists in the base directory and that [statSync] reports as a directory;
    the file is an entry that [readdirSync] lists in that directory, with a
    name ending in ".jsonl"; and its modification time lies in the date
    window taken at the time that directory was scanned, the k-th of the
    directories found. *)
Theorem searchSessions_transcriptPath_found
    (env : Env) (baseDir : string) (o : SearchOptions) (r : SearchResult) :
  In r (searchSessions env baseDir o) ->
  exists names dirName dirStat k files file st,
    readdirSync env baseDir = Some names
    /\ In dirName names
    /\ statSync env (join env baseDir dirName) = Some dirStat
    /\ isDirectory dirStat = true
    /\ nth_error (findSessionDirs env baseDir) k
       = Some (join env baseDir dirName)
    /\ readdirSync env (join env baseDir dirName) = Some files
    /\ In file files
    /\ endsWith file ".jsonl" = true
    /\ transcriptPath r = join env (join env baseDir dirName) file
    /\ statSync env (transcriptPath r) = Some st
    /\ inWindow (sinceCutoff (clock env k) o) (until o) (mtime st).
Proof.
  intros Hin.
  assert (F : Forall
                (fun r => exists k dir,
                   nth_error (findSessionDirs env baseDir) k = Some dir
                   /\ In (transcriptPath r)
                         (findSessionFiles env (clock env k) dir o))
                (searchSessions env baseDir o)).
  { unfold searchSessions. apply slice0_Forall.
    apply (Permutation_Forall
             (Permutation_sym (sortArray_perm compareResults _))).
    unfold collectResults. apply visitDirs_from; [|constructor].
    intros r' i dir Hd Hf. now exists i, dir. }
  rewrite Forall_forall in F. destruct (F r Hin) as (k & dir & Hnth & Hfile).
  assert (Hdir : In dir (findSessionDirs env baseDir))
    by (eapply nth_error_In; exact Hnth).
  unfold findSessionDirs in Hdir.
  destruct (readdirSync env baseDir) as [names|] eqn:Hbase; [|contradiction].
  apply filter_In in Hdir. destruct Hdir as [Hmap Hstat].
  apply in_map_iff in Hmap. destruct Hmap as (dirName & <- & Hname).
  destruct (statSync env (join env baseDir dirName)) as [dirStat|] eqn:Hds;
    [|discriminate].
  unfold findSessionFiles in Hfile.
  destruct (readdirSync env (join env baseDir dirName)) as [files|] eqn:Hlist;
    [|contradiction].
  apply scanFiles_sound in Hfile.
  destruct Hfile as (file & st & Hf & Hext & Hp & Hs & Hw).
  exists names, dirName, dirStat, k, files, file, st.
  conjuncts; auto.
Qed.

Lemma searchSessions_transcriptPath_found_witness :
  exists names dirName dirStat k files file st,
    readdirSync mixedCorpus "base" = Some names
    /\ In dirName names
    /\ statSync mixedCorpus (join mixedCorpus "base" dirName) = Some dirStat
    /\ isDirectory dirStat = true
    /\ nth_error (findSessionDirs mixedCorpus "base") k
       = Some (join mixedCorpus "base" dirName)
    /\ readdirSync mixedCorpus (join mixedCorpus "base" dirName) = Some files
    /\ In file files
    /\ endsWith file ".jsonl" = true
    /\ transcriptPath emailResult
       = join mixedCorpus (join mixedCorpus "base" dirName) file
    /\ statSync mixedCorpus (transcriptPath emailResult) = Some st
    /\ inWindow (sinceCutoff (clock mixedCorpus k) noOptions) (until noOptions)
                (mtime st).
Proof.
  apply (searchSessions_transcriptPath_found mixedCorpus "base" noOptions
           emailResult).
  vm_compute. left. reflexivity.
Defined.

(** ** Sorting and cutting, further *)

Section Cutting.

Context {A : Type}.

Lemma sorted_app_before (R : A -> A -> Prop) (l1 l2 : list A) :
  StronglySorted R (l1 ++ l2) ->
  forall a b, In a l1 -> In b l2 -> R a b.
Proof.
  induction l1 as [|x l1 IH]; simpl; intros Hs a b Ha Hb; [contradiction|].
  inversion Hs as [|? ? Hs' Hx]; subst.
  destruct Ha as [<- | Ha].
  - rewrite Forall_forall in Hx. apply Hx, in_or_app. now right.
  - now apply IH.
Qed.

Lemma slice0_prefix (l : list A) (finish : Z) :
  exists m, slice0 l finish = firstn m l.
Proof. unfold slice0. eexists. reflexivity. Qed.

Lemma slice0_exact_length (l : list A) (finish : Z) :
  Z.of_nat (List.length (slice0 l finish))
  = if finish <? 0
    then Z.max (Z.of_nat (List.length l) + finish) 0
    else Z.min finish (Z.of_nat (List.length l)).
Proof.
  unfold slice0. rewrite length_firstn.
  destruct (finish <? 0) eqn:E;
    [apply Z.ltb_lt in E | apply Z.ltb_ge in E]; lia.
Qed.

Lemma filter_firstn_skipn (p : A -> bool) (m : nat) (l : list A) :
  filter p l = (filter p (firstn m l) ++ filter p (skipn m l))%list.
Proof. now rewrite <- filter_app, firstn_skipn. Qed.

End Cutting.

Section Stability.

Variable k : SearchResult.

Lemma sameRank_compare (x y : SearchResult) :
  sameRank k x = true -> sameRank k y = true -> compareResults x y = 0.
Proof.
  unfold sameRank, compareResults. rewrite !andb_true_iff, !Z.eqb_eq.
  intros [Hx1 Hx2] [Hy1 Hy2].
  assert (E : (relevance x =? relevance y) = true) by (apply Z.eqb_eq; lia).
  rewrite E. simpl. lia.
Qed.

Lemma insertSorted_filter (x : SearchResult) (l : list SearchResult) :
  filter (sameRank k) (insertSorted compareResults x l)
  = filter (sameRank k) (x :: l).
Proof.
  induction l as [|y l IH]; [reflexivity|].
  simpl insertSorted. destruct (0 <? compareResults x y) eqn:Hc; [|reflexivity].
  apply Z.ltb_lt in Hc.
  change (filter (sameRank k) (y :: insertSorted compareResults x l))
    with (if sameRank k y
          then y :: filter (sameRank k) (insertSorted compareResults x l)
          else filter (sameRank k) (insertSorted compareResults x l)).
  rewrite IH. simpl.
  destruct (sameRank k x) eqn:Hx, (sameRank k y) eqn:Hy; try reflexivity.
  pose proof (sameRank_compare x y Hx Hy). lia.
Qed.

Lemma sortArray_filter (l : list SearchResult) :
  filter (sameRank k) (sortArray compareResults l) = filter (sameRank k) l.
Proof.
  induction l as [|x l IH]; [reflexivity|].
  simpl sortArray. rewrite insertSorted_filter. simpl. now rewrite IH.
Qed.

End Stability.

(** X8.  The number of results.  With a positive limit n the search returns
    the smaller of n and the number of sessions it collected, and with no
    limit or the limit 0 the smaller of 20 and that number.  A negative limit
    -k does not give an empty list: it leaves out the last k of the sorted
    results. *)
Theorem searchSessions_count
    (env : Env) (baseDir : string) (o : SearchOptions) :
  let collected := Z.of_nat (List.length (collectResults env baseDir o)) in
  let returned := Z.of_nat (List.length (searchSessions env baseDir o)) in
  (limit o = None \/ limit o = Some 0 -> returned = Z.min 20 collected)
  /\ (forall n, limit o = Some n -> 0 < n -> returned = Z.min n collected)
  /\ (forall n, limit o = Some n -> n < 0 -> returned = Z.max (collected + n) 0).
Proof.
  intros collected returned.
  assert (E : returned
              = if effectiveLimit o <? 0
                then Z.max (collected + effectiveLimit o) 0
                else Z.min (effectiveLimit o) collected).
  { unfold returned, collected, searchSessions. rewrite slice0_exact_length.
    now rewrite (Permutation_length (sortArray_perm compareResults _)). }
  split; [|split].
  - intros H.
    assert (L : effectiveLimit o = 20)
      by (unfold effectiveLimit; destruct H as [-> | ->]; reflexivity).
    rewrite E, L. reflexivity.
  - intros n H Hn.
    assert (L : effectiveLimit o = n).
    { unfold effectiveLimit. rewrite H.
      destruct (n =? 0) eqn:E0; [apply Z.eqb_eq in E0; lia | reflexivity]. }
    rewrite E, L. destruct (n <? 0) eqn:E1; [apply Z.ltb_lt in E1; lia|].
    reflexivity.
  - intros n H Hn.
    assert (L : effectiveLimit o = n).
    { unfold effectiveLimit. rewrite H.
      destruct (n =? 0) eqn:E0; [apply Z.eqb_eq in E0; lia | reflexivity]. }
    rewrite E, L. apply Z.ltb_lt in Hn. now rewrite Hn.
Qed.

Lemma searchSessions_count_witness :
  Z.of_nat (List.length (searchSessions tieCorpus "base" (withLimit noOptions (-1))))
  = Z.max (Z.of_nat (List.length (collectResults tieCorpus "base"
                                    (withLimit noOptions (-1)))) + -1) 0.
Proof.
  apply (proj2 (proj2 (searchSessions_count tieCorpus "base"
                         (withLimit noOptions (-1)))) (-1)).
  - reflexivity.
  - lia.
Defined.

(** X9.  Cutting keeps the best.  A collected result that is missing from
    the returned list ranks no higher than any returned result: every
    returned result has a greater relevance, or the same relevance and an
    [endedAt] that is not earlier. *)
Theorem searchSessions_keeps_top_ranked
    (env : Env) (baseDir : string) (o : SearchOptions) (kept dropped : SearchResult) :
  In kept (searchSessions env baseDir o) ->
  In dropped (collectResults env baseDir o) ->
  ~ In dropped (searchSessions env baseDir o) ->
  ranksBefore kept dropped.
Proof.
  unfold searchSessions.
  set (sorted := sortArray compareResults (collectResults env baseDir o)).
  destruct (slice0_prefix sorted (effectiveLimit o)) as [m ->].
  intros Hkept Hcollected Hmissing.
  assert (Hsorted : In dropped sorted).
  { apply (Permutation_in dropped
             (Permutation_sym (sortArray_perm compareResults _))).
    exact Hcollected. }
  rewrite <- (firstn_skipn m sorted) in Hsorted.
  apply in_app_or in Hsorted. destruct Hsorted as [H | H]; [contradiction|].
  apply (sorted_app_before ranksBefore (firstn m sorted) (skipn m sorted));
    auto.
  rewrite firstn_skipn. apply sortArray_results_sorted.
Qed.

Lemma searchSessions_keeps_top_ranked_witness :
  ranksBefore jan15Result jan10Result.
Proof.
  apply (searchSessions_keeps_top_ranked tieCorpus "base" (withLimit noOptions 1)).
  - vm_compute. left. reflexivity.
  - vm_compute. left. reflexivity.
  - vm_compute. intros [H | []]. discriminate H.
Defined.

(** X10.  The sort is stable all the way to the output: the results that
    share a relevance and an [endedAt] appear in the returned list in the
    order in which the search collected them, the returned ones being the
    first of them. *)
Theorem searchSessions_ties_in_collection_order
    (env : Env) (baseDir : string) (o : SearchOptions) (k : SearchResult) :
  exists cut,
    filter (sameRank k) (collectResults env baseDir o)
    = (filter (sameRank k) (searchSessions env baseDir o) ++ cut)%list.
Proof.
  unfold searchSessions.
  set (sorted := sortArray compareResults (collectResults env baseDir o)).
  destruct (slice0_prefix sorted (effectiveLimit o)) as [m ->].
  exists (filter (sameRank k) (skipn m sorted)).
  rewrite <- filter_firstn_skipn. unfold sorted.
  now rewrite sortArray_filter.
Qed.

(** ** Scoring, further *)

Section MatchCounting.

Variable terms : list string.

Lemma matchCount_cons (v : string) (values : list string) :
  matchCount (v :: values) terms
  = Z.of_nat (List.length (filter (includes (toLowerCase v)) terms))
    + matchCount values terms.
Proof.
  unfold matchCount. simpl list_prod.
  rewrite filter_app, length_app, matches_of_one_value. lia.
Qed.

Lemma matchCount_zero (values : list string) :
  matchCount values terms = 0
  <-> forall v term,
        In v values -> In term terms -> ~ occursIn term (toLowerCase v).
Proof.
  induction values as [|v vs IH].
  - split; [intros _ v term [] | reflexivity].
  - rewrite matchCount_cons.
    pose proof (matchCount_nonneg vs terms) as Hnn.
    split.
    + intros H.
      assert (H1 : filter (includes (toLowerCase v)) terms = []).
      { destruct (filter (includes (toLowerCase v)) terms) eqn:E;
          [reflexivity | simpl List.length in H; lia]. }
      assert (H2 : matchCount vs terms = 0) by lia.
      intros v' term [<- | Hv] Ht Hocc.
      * apply includes_occursIn in Hocc.
        assert (Hin : In term (filter (includes (toLowerCase v)) terms))
          by (apply filter_In; now split).
        rewrite H1 in Hin. contradiction.
      * exact (proj1 IH H2 v' term Hv Ht Hocc).
    + intros H.
      assert (H1 : filter (includes (toLowerCase v)) terms = []).
      { destruct (filter (includes (toLowerCase v)) terms) as [|t ts] eqn:E;
          [reflexivity|].
        assert (Hin : In t (filter (includes (toLowerCase v)) terms))
          by (rewrite E; now left).
        apply filter_In in Hin. destruct Hin as [Ht Hinc].
        exfalso. apply (H v t); [now left | exact Ht |].
        now apply includes_occursIn. }
      assert (H2 : matchCount vs terms = 0).
      { apply IH. intros v' term Hv. apply H. now right. }
      rewrite H1, H2. reflexivity.
Qed.

Lemma matchCount_bound (values : list string) :
  matchCount values terms
  <= Z.of_nat (List.length values) * Z.of_nat (List.length terms).
Proof.
  induction values as [|v vs IH].
  - unfold matchCount. simpl. lia.
  - rewrite matchCount_cons.
    pose proof (filter_length_le (includes (toLowerCase v)) terms).
    simpl List.length. lia.
Qed.

End MatchCounting.

Lemma matchCount_terms_app (values ts1 ts2 : list string) :
  matchCount values (ts1 ++ ts2)
  = matchCount values ts1 + matchCount values ts2.
Proof.
  induction values as [|v vs IH].
  - reflexivity.
  - rewrite !matchCount_cons, IH, filter_app, length_app. lia.
Qed.

Lemma matchCount_lowered (values1 values2 terms : list string) :
  map toLowerCase values1 = map toLowerCase values2 ->
  matchCount values1 terms = matchCount values2 terms.
Proof.
  revert values2. induction values1 as [|v vs IH]; intros [|w ws] H;
    try discriminate; [reflexivity|].
  simpl in H. injection H as Hv Hvs.
  rewrite !matchCount_cons, Hv. now rewrite (IH ws Hvs).
Qed.

Lemma toLowerCase_app (a b : string) :
  toLowerCase (a ++ b) = toLowerCase a ++ toLowerCase b.
Proof. induction a as [|c a IH]; simpl; [reflexivity | now rewrite IH]. Qed.

Lemma toLowerCase_truthy (q : string) : truthy (toLowerCase q) = truthy q.
Proof. destruct q; reflexivity. Qed.

Lemma allWhitespace_app (a b : string) :
  allWhitespace a -> allWhitespace b -> allWhitespace (a ++ b).
Proof.
  induction a as [|c a IH]; simpl; [auto|]. intros [Hc Ha] Hb. split; auto.
Qed.

Lemma Tokens_after_gap (gap s : string) (ts : list string) :
  allWhitespace gap -> Tokens s ts -> Tokens (gap ++ s) ts.
Proof.
  induction gap as [|c gap IH]; simpl; [auto|].
  intros [Hc Hg] H. apply Tokens_skip; auto.
Qed.

Lemma Tokens_joined (a b : string) (ta tb : list string) :
  Tokens a ta -> Tokens b tb ->
  Tokens (a ++ String " "%char b) (ta ++ tb).
Proof.
  intros Ha Hb.
  induction Ha as [a Hblank | gap word rest ts Hg Hn Hw Hbd Hrest IH].
  - simpl app.
    replace (a ++ String " "%char b)
      with ((a ++ String " "%char EmptyString) ++ b)
      by (rewrite append_assoc; reflexivity).
    apply Tokens_after_gap; [|exact Hb].
    apply allWhitespace_app; [exact Hblank | simpl; auto].
  - rewrite !append_assoc.
    change ((word :: ts) ++ tb)%list with (word :: (ts ++ tb))%list.
    apply Tokens_word; auto.
    destruct rest; simpl; auto.
Qed.

Lemma queryTermsOf_joined (a b : string) :
  queryTermsOf (a ++ String " "%char b)
  = (queryTermsOf a ++ queryTermsOf b)%list.
Proof.
  apply (Tokens_functional (toLowerCase (a ++ String " "%char b))).
  - apply queryTermsOf_Tokens.
  - rewrite toLowerCase_app.
    change (toLowerCase (String " "%char b))
      with (String " "%char (toLowerCase b)).
    apply Tokens_joined; apply queryTermsOf_Tokens.
Qed.

(** X11.  For a non-empty query, the score of a session is 0 exactly when no
    term of the query occurs in any lowered user message, tool name or file
    path of the session. *)
Theorem scoreRelevance_zero_iff_no_match (s : ParsedSession) (q : string) :
  q <> EmptyString ->
  (scoreRelevance s q = 0
   <-> forall term value,
         In term (queryTermsOf q) ->
         In value (userMessages s ++ toolsUsed s ++ filesFromToolCalls s) ->
         ~ occursIn term (toLowerCase value)).
Proof.
  intros Hne. rewrite scoreRelevance_sum by now apply truthy_nonempty.
  unfold weightedMatchSum.
  pose proof (matchCount_nonneg (userMessages s) (queryTermsOf q)) as N1.
  pose proof (matchCount_nonneg (toolsUsed s) (queryTermsOf q)) as N2.
  pose proof (matchCount_nonneg (filesFromToolCalls s) (queryTermsOf q)) as N3.
  split.
  - intros H term value Ht Hv.
    assert (Z1 : matchCount (userMessages s) (queryTermsOf q) = 0) by lia.
    assert (Z2 : matchCount (toolsUsed s) (queryTermsOf q) = 0) by lia.
    assert (Z3 : matchCount (filesFromToolCalls s) (queryTermsOf q) = 0) by lia.
    rewrite matchCount_zero in Z1, Z2, Z3.
    apply in_app_or in Hv. destruct Hv as [Hv | Hv]; [now apply Z1|].
    apply in_app_or in Hv. destruct Hv as [Hv | Hv]; [now apply Z2 | now apply Z3].
  - intros H.
    assert (Z1 : matchCount (userMessages s) (queryTermsOf q) = 0).
    { apply matchCount_zero. intros v term Hv Ht. apply H; [exact Ht|].
      apply in_or_app. now left. }
    assert (Z2 : matchCount (toolsUsed s) (queryTermsOf q) = 0).
    { apply matchCount_zero. intros v term Hv Ht. apply H; [exact Ht|].
      apply in_or_app. right. apply in_or_app. now left. }
    assert (Z3 : matchCount (filesFromToolCalls s) (queryTermsOf q) = 0).
    { apply matchCount_zero. intros v term Hv Ht. apply H; [exact Ht|].
      apply in_or_app. right. apply in_or_app. now right. }
    lia.
Qed.

Lemma scoreRelevance_zero_iff_no_match_witness :
  scoreRelevance emailSession "database" = 0
  <-> forall term value,
        In term (queryTermsOf "database") ->
        In value (userMessages emailSession ++ toolsUsed emailSession
                  ++ filesFromToolCalls emailSession) ->
        ~ occursIn term (toLowerCase value).
Proof.
  apply (scoreRelevance_zero_iff_no_match emailSession "database").
  discriminate.
Defined.

(** X12.  The score adds up over the parts of a query: for two non-empty
    texts, the score of the query made of both with a space in between is
    the sum of their scores. *)
Theorem scoreRelevance_additive (s : ParsedSession) (a b : string) :
  a <> EmptyString ->
  b <> EmptyString ->
  scoreRelevance s (a ++ String " "%char b)
  = scoreRelevance s a + scoreRelevance s b.
Proof.
  intros Ha Hb.
  rewrite !scoreRelevance_sum;
    try (apply truthy_nonempty; assumption);
    [|destruct a; [contradiction | reflexivity]].
  rewrite queryTermsOf_joined. unfold weightedMatchSum.
  rewrite !matchCount_terms_app. lia.
Qed.

Lemma scoreRelevance_additive_witness :
  scoreRelevance emailSession ("email" ++ String " "%char "edit")
  = scoreRelevance emailSession "email" + scoreRelevance emailSession "edit".
Proof.
  apply (scoreRelevance_additive emailSession "email" "edit"); discriminate.
Defined.

(** X13.  Scoring is blind to letter case on both sides: two queries with
    the same lowered text score two sessions alike whenever the sessions'
    user messages, tool names and file paths have the same lowered texts. *)
Theorem scoreRelevance_ignores_case
    (s1 s2 : ParsedSession) (q1 q2 : string) :
  toLowerCase q1 = toLowerCase q2 ->
  map toLowerCase (userMessages s1) = map toLowerCase (userMessages s2) ->
  map toLowerCase (toolsUsed s1) = map toLowerCase (toolsUsed s2) ->
  map toLowerCase (filesFromToolCalls s1) = map toLowerCase (filesFromToolCalls s2) ->
  scoreRelevance s1 q1 = scoreRelevance s2 q2.
Proof.
  intros Hq Hm Ht Hf.
  assert (Htruthy : truthy q1 = truthy q2)
    by (rewrite <- (toLowerCase_truthy q1), <- (toLowerCase_truthy q2);
        now rewrite Hq).
  destruct (truthy q1) eqn:E1.
  - rewrite !scoreRelevance_sum by congruence.
    unfold weightedMatchSum, queryTermsOf. rewrite Hq.
    rewrite (matchCount_lowered _ _ _ Hm), (matchCount_lowered _ _ _ Ht),
      (matchCount_lowered _ _ _ Hf).
    reflexivity.
  - unfold scoreRelevance. rewrite <- Htruthy, E1. reflexivity.
Qed.

Lemma scoreRelevance_ignores_case_witness :
  scoreRelevance emailSession "EMAIL Filter"
  = scoreRelevance (loweredFields emailSession) "email filter".
Proof.
  apply (scoreRelevance_ignores_case emailSession (loweredFields emailSession)
           "EMAIL Filter" "email filter"); reflexivity.
Defined.

(** X14.  The score is bounded by the size of the input: for a non-empty
    query it is at most the number of query terms times the sum of 10 per
    user message, 3 per tool name and 3 per file path. *)
Theorem scoreRelevance_upper_bound (s : ParsedSession) (q : string) :
  q <> EmptyString ->
  scoreRelevance s q
  <= Z.of_nat (List.length (queryTermsOf q))
     * (10 * Z.of_nat (List.length (userMessages s))
        + 3 * Z.of_nat (List.length (toolsUsed s))
        + 3 * Z.of_nat (List.length (filesFromToolCalls s))).
Proof.
  intros Hne. rewrite scoreRelevance_sum by now apply truthy_nonempty.
  unfold weightedMatchSum.
  pose proof (matchCount_bound (queryTermsOf q) (userMessages s)).
  pose proof (matchCount_bound (queryTermsOf q) (toolsUsed s)).
  pose proof (matchCount_bound (queryTermsOf q) (filesFromToolCalls s)).
  nia.
Qed.

Lemma scoreRelevance_upper_bound_witness :
  scoreRelevance emailSession "email ship"
  <= Z.of_nat (List.length (queryTermsOf "email ship"))
     * (10 * Z.of_nat (List.length (userMessages emailSession))
        + 3 * Z.of_nat (List.length (toolsUsed emailSession))
        + 3 * Z.of_nat (List.length (filesFromToolCalls emailSession))).
Proof.
  apply (scoreRelevance_upper_bound emailSession "email ship"). discriminate.
Defined.

(** ** Splitting and trimming parameters *)

Lemma splitOnFrom_nonempty (sep : ascii) (s piece : string) :
  splitOnFrom sep piece s <> [].
Proof.
  revert piece. induction s as [|c s IH]; intros piece; simpl.
  - discriminate.
  - destruct (Ascii.eqb c sep); [discriminate | apply IH].
Qed.

Lemma lacks_snoc (sep c : ascii) (piece : string) :
  lacks sep piece -> c <> sep -> lacks sep (piece ++ String c EmptyString).
Proof.
  induction piece as [|x piece IH]; simpl; intros Hp Hc.
  - split; [exact Hc | exact I].
  - destruct Hp as [Hx Hp]. split; [exact Hx | now apply IH].
Qed.

Lemma splitOnFrom_concat (sep : ascii) (s piece : string) :
  String.concat (String sep EmptyString) (splitOnFrom sep piece s) = piece ++ s.
Proof.
  revert piece. induction s as [|c s IH]; intros piece; simpl splitOnFrom.
  - simpl. now rewrite append_empty_r.
  - destruct (Ascii.eqb c sep) eqn:Hc.
    + apply Ascii.eqb_eq in Hc. subst c.
      pose proof (splitOnFrom_nonempty sep s EmptyString) as Hne.
      pose proof (IH EmptyString) as Hrest.
      destruct (splitOnFrom sep EmptyString s) as [|h t]; [contradiction|].
      simpl String.concat in *. rewrite Hrest. reflexivity.
    + rewrite IH, append_assoc. reflexivity.
Qed.

Lemma splitOnFrom_lacks (sep : ascii) (s piece : string) :
  lacks sep piece -> Forall (lacks sep) (splitOnFrom sep piece s).
Proof.
  revert piece. induction s as [|c s IH]; intros piece Hp; simpl.
  - constructor; [exact Hp | constructor].
  - destruct (Ascii.eqb c sep) eqn:Hc.
    + constructor; [exact Hp|]. apply IH. exact I.
    + apply IH. apply lacks_snoc; [exact Hp|].
      intros E. apply Ascii.eqb_neq in Hc. contradiction.
Qed.

Lemma dropWhitespace_lead (s : string) :
  exists lead,
    allWhitespace lead /\ s = lead ++ dropWhitespace s
    /\ startsClean (dropWhitespace s).
Proof.
  induction s as [|c s IH]; simpl.
  - exists EmptyString. simpl. auto.
  - destruct (isWhitespace c) eqn:Hc.
    + destruct IH as (lead & Hl & Hs & Hclean).
      exists (String c lead). simpl. conjuncts; auto. now rewrite <- Hs.
    + exists EmptyString. simpl. auto.
Qed.

Lemma trimEnd_trail (s : string) :
  exists trail,
    allWhitespace trail /\ s = trimEnd s ++ trail /\ endsClean (trimEnd s)
    /\ (startsClean s -> startsClean (trimEnd s)).
Proof.
  induction s as [|c s IH].
  - exists EmptyString. simpl. auto.
  - destruct IH as (trail & Ht & Hs & Hclean & _).
    simpl trimEnd. destruct (trimEnd s) as [|d t] eqn:E.
    + destruct (isWhitespace c) eqn:Hc.
      * exists (String c trail). simpl in Hs. subst trail.
        split; [simpl; auto|]. split; [reflexivity|]. split; [exact I|].
        simpl. intros H. congruence.
      * exists trail. simpl in Hs. subst trail.
        split; [exact Ht|]. split; [reflexivity|]. split; [exact Hc|].
        intros _. exact Hc.
    + exists trail.
      split; [exact Ht|]. split; [simpl; simpl in Hs; now rewrite <- Hs|].
      split; [exact Hclean|]. simpl. auto.
Qed.

Lemma trim_trimmedFrom (s : string) : trimmedFrom s (trim s).
Proof.
  unfold trimmedFrom, trim.
  destruct (dropWhitespace_lead s) as (lead & Hl & Hs & Hstart).
  destruct (trimEnd_trail (dropWhitespace s)) as (trail & Ht & Hd & Hend & Hkeep).
  exists lead, trail. conjuncts; auto.
  rewrite <- Hd. exact Hs.
Qed.

(** X15.  Splitting at commas loses nothing: joining the pieces of
    [splitComma] with commas gives the text back, no piece holds a comma, and
    there is always at least one piece, so a text without a comma is its own
    single piece. *)
Theorem splitComma_round_trip (text : string) :
  String.concat "," (splitComma text) = text
  /\ Forall (lacks ","%char) (splitComma text)
  /\ splitComma text <> []
  /\ (lacks ","%char text -> splitComma text = [text]).
Proof.
  unfold splitComma. split; [|split; [|split]].
  - apply (splitOnFrom_concat ","%char text EmptyString).
  - apply splitOnFrom_lacks. exact I.
  - apply splitOnFrom_nonempty.
  - assert (G : forall s piece,
              lacks ","%char s ->
              splitOnFrom ","%char piece s = [piece ++ s]).
    { induction s as [|c s IH]; intros piece Hs; simpl.
      - now rewrite append_empty_r.
      - destruct Hs as [Hc Hs]. apply Ascii.eqb_neq in Hc. rewrite Hc.
        rewrite IH by exact Hs. now rewrite append_assoc. }
    intros H. now rewrite G.
Qed.

Lemma splitComma_round_trip_witness :
  lacks ","%char "Edit" /\ splitComma "Edit" = ["Edit"].
Proof.
  assert (H : lacks ","%char "Edit")
    by (simpl; repeat split; discriminate).
  split; [exact H|].
  exact (proj2 (proj2 (proj2 (splitComma_round_trip "Edit"))) H).
Defined.

(** ** From the command line and the request to the search *)

Lemma hasMatchingTool_without_tools (s : ParsedSession) (requested : list string) :
  toolsUsed s = [] -> hasMatchingTool s requested = false.
Proof.
  intros H. unfold hasMatchingTool. rewrite H.
  induction requested as [|x xs IH]; simpl; [reflexivity | exact IH].
Qed.

(** X16.  A non-empty [--tools] value always switches the tool filter on:
    the requested list is the value's comma-separated pieces, it is never
    empty, and the search then admits no session that used no tool.  Without
    the option, or with an empty value, no tools are requested. *)
Theorem cliOptions_tools_filter_on
    (parseDate : string -> JsDate) (values : CliValues) :
  (forall text,
     arg_tools values = Some text ->
     text <> EmptyString ->
     tools (cliOptions parseDate values) = Some (splitComma text)
     /\ splitComma text <> []
     /\ forall s, toolsUsed s = [] ->
                  matchesFilters s (cliOptions parseDate values) = false)
  /\ (arg_tools values = None \/ arg_tools values = Some EmptyString ->
      tools (cliOptions parseDate values) = None).
Proof.
  split.
  - intros text Ht Hne.
    assert (E : tools (cliOptions parseDate values) = Some (splitComma text)).
    { simpl. rewrite Ht. unfold whenGiven.
      now rewrite (proj2 (truthy_nonempty text) Hne). }
    pose proof (splitOnFrom_nonempty ","%char text EmptyString) as Hlist.
    fold (splitComma text) in Hlist.
    split; [exact E|]. split; [exact Hlist|].
    intros s Hs. rewrite matchesFilters_and. unfold passesToolFilter.
    rewrite E. destruct (splitComma text) as [|x xs] eqn:Hsplit;
      [contradiction|].
    change (0 <? List.length (x :: xs))%nat with true. cbv iota.
    now rewrite hasMatchingTool_without_tools.
  - intros [H | H]; simpl; rewrite H; reflexivity.
Qed.

Lemma cliOptions_tools_filter_on_witness :
  tools (cliOptions parseKnownDate (toolsValue noValues "Edit,Bash"))
  = Some (splitComma "Edit,Bash")
  /\ splitComma "Edit,Bash" <> []
  /\ forall s, toolsUsed s = [] ->
               matchesFilters s
                 (cliOptions parseKnownDate (toolsValue noValues "Edit,Bash"))
               = false.
Proof.
  apply (proj1 (cliOptions_tools_filter_on parseKnownDate
                  (toolsValue noValues "Edit,Bash")) "Edit,Bash").
  - reflexivity.
  - discriminate.
Defined.

(** X17.  The tool names the HTTP route hands to the database are the
    comma-separated pieces of the [tools] parameter, one for one and in
    order, each without the whitespace around it: an entry neither begins
    nor ends with whitespace. *)
Theorem routeToolList_trimmed (toolsParam : string) :
  Forall2 trimmedFrom (splitComma toolsParam) (routeToolList toolsParam).
Proof.
  unfold routeToolList.
  induction (splitComma toolsParam) as [|piece pieces IH]; simpl.
  - constructor.
  - constructor; [apply trim_trimmedFrom | exact IH].
Qed.

(** X18.  The text-search query of the HTTP route is built from the
    whitespace-separated words of the search text, in order and in their
    own letter case: each word followed by ":*", the terms joined by " & ".
    A search text of whitespace only gives the empty query. *)
Theorem tsQueryOf_words (search : string) :
  (forall words,
     Tokens search words ->
     tsQueryOf search
     = String.concat " & " (map (fun word => word ++ ":*") words))
  /\ (allWhitespace search -> tsQueryOf search = EmptyString).
Proof.
  assert (H : Tokens search (filter truthy (splitWhitespace search))).
  { apply (splitFrom_Tokens search EmptyString false);
      [exact I | discriminate]. }
  split.
  - intros words Hw. unfold tsQueryOf.
    now rewrite (Tokens_functional search _ _ H Hw).
  - intros Hblank. unfold tsQueryOf, splitWhitespace.
    now rewrite splitFrom_blank.
Qed.

Lemma tsQueryOf_words_witness :
  allWhitespace "  " /\ tsQueryOf "  " = EmptyString.
Proof.
  assert (H : allWhitespace "  ") by (simpl; repeat split; reflexivity).
  split; [exact H|].
  exact (proj2 (tsQueryOf_words "  ") H).
Defined.

(** X19.  The limit the search applies for a command line: 20 when
    [--limit] is missing, empty, not a number or 0, and otherwise the finite
    number that [parseInt] returns for it, the double nearest to its digits,
    negative ones included. *)
Theorem cliOptions_effective_limit
    (parseDate : string -> JsDate) (values : CliValues) :
  (arg_limit values = None \/ arg_limit values = Some EmptyString ->
   effectiveLimit (cliOptions parseDate values) = 20)
  /\ (forall text,
        arg_limit values = Some text ->
        text <> EmptyString ->
        parseInt10 text = NaN \/ parseInt10 text = Num 0 ->
        effectiveLimit (cliOptions parseDate values) = 20)
  /\ (forall text n,
        arg_limit values = Some text ->
        text <> EmptyString ->
        parseInt10 text = Num n ->
        n <> 0 ->
        effectiveLimit (cliOptions parseDate values) = n).
Proof.
  unfold effectiveLimit. split; [|split].
  - intros [H | H]; simpl; rewrite H; reflexivity.
  - intros text Ht Hne Hp. simpl. rewrite Ht. unfold whenGiven.
    rewrite (proj2 (truthy_nonempty text) Hne).
    destruct Hp as [-> | ->]; reflexivity.
  - intros text n Ht Hne Hp Hn. simpl.
    rewrite Ht. unfold whenGiven.
    rewrite (proj2 (truthy_nonempty text) Hne), Hp. simpl.
    apply Z.eqb_neq in Hn. now rewrite Hn.
Qed.

Lemma cliOptions_effective_limit_witness :
  effectiveLimit (cliOptions parseKnownDate (limitValue noValues "ten")) = 20
  /\ effectiveLimit (cliOptions parseKnownDate (limitValue noValues "-3")) = -3.
Proof.
  split.
  - apply (proj1 (proj2 (cliOptions_effective_limit parseKnownDate
                           (limitValue noValues "ten"))) "ten").
    + reflexivity.
    + discriminate.
    + left. reflexivity.
  - apply (proj2 (proj2 (cliOptions_effective_limit parseKnownDate
                           (limitValue noValues "-3"))) "-3" (-3)).
    + reflexivity.
    + discriminate.
    + reflexivity.
    + discriminate.
Defined.

(** X20.  The lower bound of the date window for a command line.  A
    non-empty [--since] is the cutoff whatever [--days] says; when its text
    is not a date, the cutoff is the invalid date and no file is left out
    for being too old.  Without [--since], a [--days] value that is not a
    number or is 0 sets no cutoff. *)
Theorem cliOptions_since_cutoff
    (parseDate : string -> JsDate) (values : CliValues) (now : Z) :
  (forall text,
     arg_since values = Some text ->
     text <> EmptyString ->
     sinceCutoff now (cliOptions parseDate values) = Some (parseDate text)
     /\ (parseDate text = InvalidDate ->
         forall t, withinWindow (sinceCutoff now (cliOptions parseDate values))
                                None t = true))
  /\ (forall text,
        arg_since values = None \/ arg_since values = Some EmptyString ->
        arg_days values = Some text ->
        parseInt10 text = NaN \/ parseInt10 text = Num 0 ->
        sinceCutoff now (cliOptions parseDate values) = None).
Proof.
  split.
  - intros text Hs Hne.
    assert (E : sinceCutoff now (cliOptions parseDate values)
                = Some (parseDate text)).
    { unfold sinceCutoff. simpl. rewrite Hs. unfold whenGiven.
      now rewrite (proj2 (truthy_nonempty text) Hne). }
    split; [exact E|]. intros Hbad t. rewrite E, Hbad. reflexivity.
  - intros text Hs Hd Hp. unfold sinceCutoff. simpl. rewrite Hd.
    assert (Hsince : whenGiven (arg_since values)
                       (fun s => Some (parseDate s)) None = None)
      by (destruct Hs as [-> | ->]; reflexivity).
    rewrite Hsince. unfold whenGiven.
    destruct (truthy text); [|reflexivity].
    destruct Hp as [-> | ->]; reflexivity.
Qed.

Lemma cliOptions_since_cutoff_witness :
  sinceCutoff (utcMidnight 2025 1 20)
    (cliOptions parseKnownDate (daysValue (sinceValue noValues "last week") "7"))
  = Some (parseKnownDate "last week")
  /\ (parseKnownDate "last week" = InvalidDate ->
      forall t,
        withinWindow
          (sinceCutoff (utcMidnight 2025 1 20)
             (cliOptions parseKnownDate
                (daysValue (sinceValue noValues "last week") "7")))
          None t = true).
Proof.
  apply (proj1 (cliOptions_since_cutoff parseKnownDate
                  (daysValue (sinceValue noValues "last week") "7")
                  (utcMidnight 2025 1 20)) "last week").
  - reflexivity.
  - discriminate.
Defined.

(** ** Nothing that matches is lost *)

Section Completeness.

Variable env : Env.
Variable o : SearchOptions.

Lemma visitFile_keeps (results : list SearchResult) (filePath : string)
    (r : SearchResult) :
  In r results -> In r (visitFile env o results filePath).
Proof.
  intros H. destruct (visitFile_adds env o results filePath) as [-> | (x & -> & _)];
    [exact H | apply in_or_app; now left].
Qed.

Lemma visitFiles_keeps (files : list string) (results : list SearchResult)
    (r : SearchResult) :
  In r results -> In r (fold_left (visitFile env o) files results).
Proof.
  revert results. induction files as [|f fs IH]; intros results H; simpl;
    [exact H|].
  apply IH. now apply visitFile_keeps.
Qed.

Lemma visitDirs_keeps (dirs : list string) (k : nat)
    (results : list SearchResult) (r : SearchResult) :
  In r results -> In r (visitDirs env o k results dirs).
Proof.
  revert k results. induction dirs as [|d ds IH]; intros k results H; simpl;
    [exact H|].
  apply IH. now apply visitFiles_keeps.
Qed.

Lemma visitFile_pushes (results : list SearchResult) (filePath : string)
    (s : ParsedSession) :
  parseSessionFile env filePath = Parsed s ->
  userMessages s <> [] ->
  matchesFilters s o = true ->
  (presentText (query o) = true -> relevanceFor o s <> 0) ->
  visitFile env o results filePath
  = (results ++ [ {| session := s;
                     relevance := relevanceFor o s;
                     transcriptPath := filePath |} ])%list.
Proof.
  intros Hparse Hmsgs Hmatch Hrel. unfold visitFile. rewrite Hparse.
  destruct (userMessages s) as [|m ms] eqn:E; [contradiction|].
  simpl List.length. cbv iota beta. simpl Nat.eqb. cbv iota.
  rewrite Hmatch. simpl negb. cbv iota.
  fold (relevanceFor o s).
  destruct (presentText (query o)) eqn:Hq; simpl andb; cbv iota.
  - specialize (Hrel eq_refl). apply Z.eqb_neq in Hrel. rewrite Hrel.
    reflexivity.
  - reflexivity.
Qed.

Lemma visitFiles_complete (files : list string) (results : list SearchResult)
    (filePath : string) (s : ParsedSession) :
  In filePath files ->
  parseSessionFile env filePath = Parsed s ->
  userMessages s <> [] ->
  matchesFilters s o = true ->
  (presentText (query o) = true -> relevanceFor o s <> 0) ->
  In {| session := s; relevance := relevanceFor o s; transcriptPath := filePath |}
     (fold_left (visitFile env o) files results).
Proof.
  revert results. induction files as [|f fs IH]; intros results Hin Hp Hm Hf Hr;
    [contradiction|].
  simpl. destruct Hin as [-> | Hin].
  - apply visitFiles_keeps. rewrite (visitFile_pushes results filePath s) by auto.
    apply in_or_app. right. now left.
  - now apply IH.
Qed.

Lemma visitDirs_complete (dirs : list string) (k i : nat)
    (results : list SearchResult) (dir filePath : string) (s : ParsedSession) :
  nth_error dirs i = Some dir ->
  In filePath (findSessionFiles env (clock env (k + i)) dir o) ->
  parseSessionFile env filePath = Parsed s ->
  userMessages s <> [] ->
  matchesFilters s o = true ->
  (presentText (query o) = true -> relevanceFor o s <> 0) ->
  In {| session := s; relevance := relevanceFor o s; transcriptPath := filePath |}
     (visitDirs env o k results dirs).
Proof.
  revert k i results.
  induction dirs as [|d ds IH]; intros k i results Hnth Hin Hp Hm Hf Hr.
  - destruct i; discriminate.
  - simpl. destruct i as [|i].
    + simpl in Hnth. injection Hnth as ->. rewrite Nat.add_0_r in Hin.
      apply visitDirs_keeps. now apply visitFiles_complete.
    + simpl in Hnth. apply (IH (S k) i); auto.
      now rewrite Nat.add_succ_comm.
Qed.

End Completeness.

(** X21.  Nothing that matches is lost before the cut.  When the file of a
    session is found in the i-th directory, parses to a session with user
    messages that passes the filters, and, under a query, does not score 0,
    its result is among the collected ones, with the score as its relevance;
    it is returned whenever the limit is at least the number of collected
    results. *)
Theorem searchSessions_complete
    (env : Env) (baseDir : string) (o : SearchOptions)
    (i : nat) (dir filePath : string) (s : ParsedSession) :
  nth_error (findSessionDirs env baseDir) i = Some dir ->
  In filePath (findSessionFiles env (clock env i) dir o) ->
  parseSessionFile env filePath = Parsed s ->
  userMessages s <> [] ->
  matchesFilters s o = true ->
  (presentText (query o) = true -> relevanceFor o s <> 0) ->
  In {| session := s; relevance := relevanceFor o s; transcriptPath := filePath |}
     (collectResults env baseDir o)
  /\ (Z.of_nat (List.length (collectResults env baseDir o)) <= effectiveLimit o ->
      In {| session := s; relevance := relevanceFor o s;
            transcriptPath := filePath |}
         (searchSessions env baseDir o)).
Proof.
  intros Hnth Hin Hp Hm Hf Hr.
  assert (C : In {| session := s; relevance := relevanceFor o s;
                    transcriptPath := filePath |}
                 (collectResults env baseDir o)).
  { unfold collectResults.
    apply (visitDirs_complete env o (findSessionDirs env baseDir) 0 i [] dir);
      auto. }
  split; [exact C|].
  intros Hfew. rewrite searchSessions_uncut by exact Hfew.
  apply (Permutation_in _ (Permutation_sym (sortArray_perm compareResults _))).
  exact C.
Qed.

Lemma searchSessions_complete_witness :
  In {| session := emailSession;
        relevance := relevanceFor (withQuery noOptions "email") emailSession;
        transcriptPath := "base/project/email.jsonl" |}
     (collectResults mixedCorpus "base" (withQuery noOptions "email"))
  /\ (Z.of_nat (List.length
                  (collectResults mixedCorpus "base" (withQuery noOptions "email")))
      <= effectiveLimit (withQuery noOptions "email") ->
      In {| session := emailSession;
            relevance := relevanceFor (withQuery noOptions "email") emailSession;
            transcriptPath := "base/project/email.jsonl" |}
         (searchSessions mixedCorpus "base" (withQuery noOptions "email"))).
Proof.
  apply (searchSessions_complete mixedCorpus "base" (withQuery noOptions "email")
           0%nat "base/project" "base/project/email.jsonl" emailSession).
  - reflexivity.
  - vm_compute. right. left. reflexivity.
  - reflexivity.
  - discriminate.
  - reflexivity.
  - intros _. vm_compute. discriminate.
Defined.

(** ** The limit only cuts *)

Lemma visitFiles_withLimit (env : Env) (o : SearchOptions) (n : Z)
    (files : list string) (results : list SearchResult) :
  fold_left (visitFile env (withLimit o n)) files results
  = fold_left (visitFile env o) files results.
Proof.
  revert results. induction files as [|f fs IH]; intros results; simpl;
    [reflexivity|].
  rewrite IH. reflexivity.
Qed.

Lemma visitDirs_withLimit (env : Env) (o : SearchOptions) (n : Z)
    (dirs : list string) (k : nat) (results : list SearchResult) :
  visitDirs env (withLimit o n) k results dirs = visitDirs env o k results dirs.
Proof.
  revert k results. induction dirs as [|d ds IH]; intros k results; simpl;
    [reflexivity|].
  rewrite IH, visitFiles_withLimit. reflexivity.
Qed.

Lemma slice0_firstn {A : Type} (l : list A) (finish : Z) :
  0 <= finish ->
  slice0 l finish
  = firstn (Z.to_nat (Z.min finish (Z.of_nat (List.length l)))) l.
Proof.
  intros H. unfold slice0.
  destruct (finish <? 0) eqn:E; [apply Z.ltb_lt in E; lia|].
  f_equal. lia.
Qed.

(** X22.  The limit only cuts the list and changes nothing else: for
    positive limits n <= m, the results for the limit n are the first n of
    the results for the limit m, in the same order. *)
Theorem searchSessions_limit_prefix
    (env : Env) (baseDir : string) (o : SearchOptions) (n m : Z) :
  0 < n ->
  n <= m ->
  searchSessions env baseDir (withLimit o n)
  = firstn (Z.to_nat n) (searchSessions env baseDir (withLimit o m)).
Proof.
  intros Hn Hm.
  assert (L : forall x, 0 < x -> effectiveLimit (withLimit o x) = x).
  { intros x Hx. unfold effectiveLimit. simpl.
    destruct (x =? 0) eqn:E; [apply Z.eqb_eq in E; lia | reflexivity]. }
  unfold searchSessions, collectResults.
  rewrite !visitDirs_withLimit, (L n Hn), (L m) by lia.
  set (sorted := sortArray compareResults _).
  rewrite !slice0_firstn by lia. rewrite firstn_firstn.
  f_equal. lia.
Qed.

Lemma searchSessions_limit_prefix_witness :
  searchSessions tieCorpus "base" (withLimit noOptions 1)
  = firstn (Z.to_nat 1) (searchSessions tieCorpus "base" (withLimit noOptions 2)).
Proof.
  apply (searchSessions_limit_prefix tieCorpus "base" noOptions 1 2); lia.
Defined.

(** ** The tool condition of the HTTP route *)

(** C7, the claim as stated fails on the HTTP route.  The requested name
    "edit" is a case-insensitive substring of the tool "Edit", and the
    file-based [matchesFilters] admits the session; the route hands the name
    as it is to the database's [?|], which looks for an equal element, so a
    row whose tools are ["Edit"] is not admitted by "edit", and neither by
    the substring "Edi". *)
Lemma route_tool_filter_is_exact_match :
  occursInIgnoringCase "edit" "Edit"
  /\ matchesFilters editSession (withTools_requested noOptions ["edit"]) = true
  /\ routeToolList "edit" = ["edit"]
  /\ routeAdmitsTools (Some "edit") (toolsUsed editSession) = false
  /\ routeAdmitsTools (Some "Edi") (toolsUsed editSession) = false
  /\ routeAdmitsTools (Some "Bash, Edit") (toolsUsed editSession) = true.
Proof.
  split.
  { exists EmptyString, EmptyString. reflexivity. }
  repeat split; reflexivity.
Qed.
